(** * logicrepo: the rule evaluator and the test runner

    A shallow embedding of [src/evaluator.ts] (condition matching, [evaluate],
    [evaluateByType]) and of [src/runner.ts] ([deepEqual], [generateReason],
    [runTest]), with the properties the specification states about them.

    The data the two files work on is what the YAML loader hands over: plain
    JavaScript values.  They are modelled as trees ([JS.value]); numbers are
    IEEE 754 binary64, as in JavaScript, through Rocq's primitive floats. *)

From Stdlib Require Import List String Ascii Bool Arith Lia PrimFloat.
From Stdlib Require Import DecimalNat DecimalString.
From Stdlib Require Import Permutation.
Import ListNotations.
Local Open Scope string_scope.
Local Open Scope list_scope.

(** ** JavaScript values and the built-ins the sources use *)
Module JS.

#[local] Unset Elimination Schemes.
(** A value as [yaml.parse] produces it, plus [undefined], which a property
    read yields for a key that is not there.  An object is the list of its own
    enumerable properties in [Object.entries] order.  Strings are byte strings
    (the text of the rule files is ASCII). *)
Inductive value : Type :=
| VUndefined
| VNull
| VBool (b : bool)
| VNum (x : float)
| VStr (s : string)
| VArr (xs : list value)
| VObj (fs : list (string * value)).
#[local] Set Elimination Schemes.

(** [Record<string, unknown>] *)
Definition obj : Type := list (string * value).

(** The result of [typeof]. *)
Inductive jstype : Type := TUndefined | TObject | TBoolean | TNumber | TString.

Definition typeof (v : value) : jstype :=
  match v with
  | VUndefined => TUndefined
  | VNull | VArr _ | VObj _ => TObject
  | VBool _ => TBoolean
  | VNum _ => TNumber
  | VStr _ => TString
  end.

Definition jstype_eqb (s t : jstype) : bool :=
  match s, t with
  | TUndefined, TUndefined | TObject, TObject | TBoolean, TBoolean
  | TNumber, TNumber | TString, TString => true
  | _, _ => false
  end.

(** [a === b].  Two numbers are compared as IEEE 754 does (NaN differs from
    itself, the two zeros are equal).  Arrays and objects are compared by
    reference: the values compared here always come from two different
    documents (a rule file against a test file, a condition against an input),
    so two compound values are never the same object. *)
Definition strictEq (a b : value) : bool :=
  match a, b with
  | VUndefined, VUndefined => true
  | VNull, VNull => true
  | VBool x, VBool y => Bool.eqb x y
  | VNum x, VNum y => PrimFloat.eqb x y
  | VStr x, VStr y => String.eqb x y
  | _, _ => false
  end.

(** SameValueZero, the comparison of [Array.prototype.includes]: strict
    equality, except that NaN is the same value as NaN. *)
Definition sameValueZero (a b : value) : bool :=
  match a, b with
  | VNum x, VNum y => PrimFloat.eqb x y || (PrimFloat.is_nan x && PrimFloat.is_nan y)
  | _, _ => strictEq a b
  end.

(** ToBoolean, the test of [c ? x : y]. *)
Definition truthy (v : value) : bool :=
  match v with
  | VUndefined | VNull => false
  | VBool b => b
  | VNum x => negb (PrimFloat.eqb x 0%float || PrimFloat.is_nan x)
  | VStr s => negb (String.eqb s "")
  | VArr _ | VObj _ => true
  end.

(** The property name of the array index [n]. *)
Definition indexKey (n : nat) : string := NilZero.string_of_uint (Nat.to_uint n).

Fixpoint indexedFrom (i : nat) (xs : list value) : obj :=
  match xs with
  | [] => []
  | x :: rest => (indexKey i, x) :: indexedFrom (S i) rest
  end.

Definition chars (s : string) : list value :=
  map (fun c => VStr (String c EmptyString)) (list_ascii_of_string s).

(** [Object.entries(v)] for [v] other than [null] and [undefined] (on which it
    throws): the properties of an object, the elements of an array under their
    indices, the characters of a string, nothing for a number or a boolean.
    The object spread [{ ...v }] copies the same properties, and copies
    nothing from [null] and [undefined]. *)
Definition entries (v : value) : obj :=
  match v with
  | VObj fs => fs
  | VArr xs => indexedFrom 0 xs
  | VStr s => indexedFrom 0 (chars s)
  | VUndefined | VNull | VBool _ | VNum _ => []
  end.

(** [Object.keys(v)] *)
Definition keys (v : value) : list string := map fst (entries v).

Definition spread (v : value) : obj := entries v.

(** [keys.includes(key)] on a list of strings *)
Definition includesKey (ks : list string) (key : string) : bool :=
  existsb (String.eqb key) ks.

Fixpoint lookup (k : string) (fs : obj) : option value :=
  match fs with
  | [] => None
  | (k', v) :: rest => if String.eqb k' k then Some v else lookup k rest
  end.

(** [o[k]] on a record: the property, or [undefined].  A key that [o] lacks
    and [Object.prototype] has reads, in JavaScript, as a function
    ([constructor], [toString], ...) or as [Object.prototype] itself
    ([__proto__]); the matcher treats both as it treats [undefined] against
    any value of a document: neither is a number, neither is strictly equal
    to a value of a document, and no list of a document holds either. *)
Definition getOwn (o : obj) (k : string) : value :=
  match lookup k o with
  | Some v => v
  | None => VUndefined
  end.

(** [o[k]] on a record made by an object literal, where the runner compares
    what it reads by [deepEqual] and prints it by [JSON.stringify].  The read
    of [__proto__] on a record without such a property gives
    [Object.prototype], an object that has no enumerable property: it stands
    here as the empty object, from which neither [deepEqual] (on a value of a
    document, never the same object) nor [JSON.stringify] tells it apart.  A
    function read from [Object.prototype] stands as [undefined]:
    [JSON.stringify] gives [undefined] on it, and [deepEqual] is false on it
    against every value of a document. *)
Definition getProperty (o : obj) (k : string) : value :=
  match lookup k o with
  | Some v => v
  | None => if String.eqb k "__proto__" then VObj [] else VUndefined
  end.

(** What running a piece of the program comes to: a value, a thrown
    [TypeError], or a relational operator applied to an operand whose
    conversion to a number parses a text, which is not modelled (see
    [toNumber]); JavaScript does not throw in the last case, the operator
    gives a boolean. *)
Inductive result (A : Type) : Type :=
| Ok (a : A)
| TypeError
| Uncoerced.

Arguments Ok {A} a.
Arguments TypeError {A}.
Arguments Uncoerced {A}.

(** The conversion of [v] to a primitive throws.  On an object it calls
    [valueOf] and [toString].  An object of a document has no function among
    its properties: [Object.prototype.valueOf] returns the object itself, a
    property [valueOf] cannot be called, and so the outcome is that of
    [toString]; a property [toString] hides [Object.prototype.toString] by a
    value that cannot be called, and the conversion throws a [TypeError].  An
    array is converted by [Array.prototype.toString], which joins the texts
    of its elements: nothing for [null] and [undefined], and for an array or
    an object the text this same conversion gives. *)
Fixpoint toPrimitiveThrows (v : value) : bool :=
  match v with
  | VObj fs =>
      match lookup "toString" fs with
      | Some _ => true
      | None => false
      end
  | VArr xs => existsb toPrimitiveThrows xs
  | VUndefined | VNull | VBool _ | VNum _ | VStr _ => false
  end.

(** ToNumber, as the relational operators apply it to an operand.  An object
    whose conversion does not throw becomes the text [[object Object]], which
    is no numeric literal: NaN.  A string, and the text an array becomes, are
    parsed as a numeric literal; that part of the language is outside this
    development ([Uncoerced]). *)
Definition toNumber (v : value) : result float :=
  match v with
  | VUndefined => Ok PrimFloat.nan
  | VNull => Ok 0%float
  | VBool b => Ok (if b then 1%float else 0%float)
  | VNum x => Ok x
  | VStr _ => Uncoerced
  | VArr _ => if toPrimitiveThrows v then TypeError else Uncoerced
  | VObj _ => if toPrimitiveThrows v then TypeError else Ok PrimFloat.nan
  end.

Definition bind {A B : Type} (m : result A) (k : A -> result B) : result B :=
  match m with
  | Ok a => k a
  | TypeError => TypeError
  | Uncoerced => Uncoerced
  end.

Section Iteration.
Context {A : Type} (f : A -> result bool).

(** [xs.every(f)]: stops at the first element on which [f] is false. *)
Fixpoint every (xs : list A) : result bool :=
  match xs with
  | [] => Ok true
  | x :: rest => bind (f x) (fun b => if b then every rest else Ok false)
  end.

(** [xs.some(f)]: stops at the first element on which [f] is true. *)
Fixpoint some (xs : list A) : result bool :=
  match xs with
  | [] => Ok false
  | x :: rest => bind (f x) (fun b => if b then Ok true else some rest)
  end.

(** [xs.filter(f)] *)
Fixpoint filterR (xs : list A) : result (list A) :=
  match xs with
  | [] => Ok []
  | x :: rest =>
      bind (f x) (fun b =>
      bind (filterR rest) (fun kept => Ok (if b then x :: kept else kept)))
  end.
End Iteration.

Section OwnProperty.
Context {R : Type} (k : string) (absent : R) (present : value -> R).

(** [k in o ? present(o[k]) : absent], walking the properties of [o]. *)
Fixpoint withOwn (o : obj) : R :=
  match o with
  | [] => absent
  | (k', v) :: rest => if String.eqb k' k then present v else withOwn rest
  end.
End OwnProperty.

End JS.

Declare Scope js_scope.
Notation "x <- m ;; k" := (JS.bind m (fun x => k))
  (at level 61, m at next level, right associativity) : js_scope.
Local Open Scope js_scope.

(** ** src/evaluator.ts *)
Module Evaluator.
Import JS.

(** [interface Rule].  [when] is declared a [Condition]; the loader only
    checks that it is not [undefined], so it is kept as a value.  [then] is
    checked to be of type object. *)
Record Rule : Type := mkRule {
  id : string;
  when : value;
  then_ : value
}.

(** [interface EvaluationResult]; [matched_rule] is [string | null]. *)
Record EvaluationResult : Type := mkResult {
  matched_rule : option string;
  output : obj
}.

Definition comparisonKeys : list string := ["gte"; "lte"; "gt"; "lt"].

Definition isComparisonOperator (v : value) : bool :=
  match v with
  | VArr _ | VObj _ => existsb (includesKey comparisonKeys) (keys v)
  | _ => false
  end.

(** An array has no property of name [in]. *)
Definition isInOperator (v : value) : bool :=
  match v with
  | VObj fs =>
      match lookup "in" fs with
      | Some (VArr _) => true
      | _ => false
      end
  | _ => false
  end.

(** [operator.k !== undefined && !(actual REL operator.k)] is false, for a
    number [actual]: the bound [k] is absent or it holds.  A bound that is not
    a number is converted by the relational operator, which throws where the
    conversion does. *)
Definition boundHolds (rel : float -> float -> bool) (actual : float) (bound : value)
  : result bool :=
  match bound with
  | VUndefined => Ok true
  | _ => bind (toNumber bound) (fun n => Ok (rel actual n))
  end.

Definition ge (a b : float) : bool := PrimFloat.leb b a.
Definition le (a b : float) : bool := PrimFloat.leb a b.
Definition gt (a b : float) : bool := PrimFloat.ltb b a.
Definition lt (a b : float) : bool := PrimFloat.ltb a b.

Definition compareValue (actual : value) (operator : obj) : result bool :=
  match actual with
  | VNum a =>
      h <- boundHolds ge a (getOwn operator "gte") ;;
      if negb h then Ok false else
      h <- boundHolds le a (getOwn operator "lte") ;;
      if negb h then Ok false else
      h <- boundHolds gt a (getOwn operator "gt") ;;
      if negb h then Ok false else
      h <- boundHolds lt a (getOwn operator "lt") ;;
      if negb h then Ok false else
      Ok true
  | _ => Ok false
  end.

(** [operator.in.includes(actual)]; called under [isInOperator]. *)
Definition checkInOperator (actual : value) (operator : obj) : bool :=
  match getOwn operator "in" with
  | VArr xs => existsb (fun x => sameValueZero x actual) xs
  | _ => false
  end.

Definition matchCondition (condition actual : value) : result bool :=
  if isComparisonOperator condition then compareValue actual (entries condition)
  else if isInOperator condition then Ok (checkInOperator actual (entries condition))
  else Ok (strictEq actual condition).

Definition reserved (field : string) : bool :=
  String.eqb field "all" || String.eqb field "any".

(** The first loop of [matchConditions], over [Object.entries(conditions)]. *)
Fixpoint fieldsMatch (es : obj) (input : obj) : result bool :=
  match es with
  | [] => Ok true
  | (field, constraint) :: rest =>
      if reserved field then fieldsMatch rest input
      else
        m <- matchCondition constraint (getOwn input field) ;;
        if negb m then Ok false else fieldsMatch rest input
  end.

(** [Object.entries] throws on [null] and [undefined]; on a number or a
    boolean it is empty and ['all' in conditions] throws; on a string the
    characters are the constraints and ['all' in conditions] throws after
    them; an array has its elements as constraints and neither an [all] nor an
    [any] property. *)
Fixpoint matchConditions (conditions : value) (input : obj) {struct conditions}
  : result bool :=
  match conditions with
  | VUndefined | VNull | VBool _ | VNum _ => TypeError
  | VStr _ =>
      ok <- fieldsMatch (entries conditions) input ;;
      if negb ok then Ok false else TypeError
  | VArr _ =>
      ok <- fieldsMatch (entries conditions) input ;;
      if negb ok then Ok false else Ok true
  | VObj fs =>
      ok <- fieldsMatch fs input ;;
      if negb ok then Ok false else
      okAll <- withOwn "all" (Ok true)
                 (fun v => match v with
                           | VArr cs => every (fun c => matchConditions c input) cs
                           | _ => Ok true
                           end) fs ;;
      if negb okAll then Ok false else
      okAny <- withOwn "any" (Ok true)
                 (fun v => match v with
                           | VArr cs => some (fun c => matchConditions c input) cs
                           | _ => Ok true
                           end) fs ;;
      if negb okAny then Ok false else
      Ok true
  end.

(** The second and third steps of [matchConditions] on an object, with the
    property read by [lookup]:
    ['all' in conditions && Array.isArray(conditions.all)] guards
    [conditions.all.every(...)], and the same for [any] with [some]. *)
Definition allClause (fs : obj) (input : obj) : result bool :=
  match lookup "all" fs with
  | Some (VArr cs) => every (fun c => matchConditions c input) cs
  | _ => Ok true
  end.

Definition anyClause (fs : obj) (input : obj) : result bool :=
  match lookup "any" fs with
  | Some (VArr cs) => some (fun c => matchConditions c input) cs
  | _ => Ok true
  end.

Definition fires (rule : Rule) : EvaluationResult :=
  {| matched_rule := Some (id rule); output := spread (then_ rule) |}.

Definition noMatch : EvaluationResult :=
  {| matched_rule := None; output := [] |}.

Fixpoint evaluate (rules : list Rule) (input : obj) : result EvaluationResult :=
  match rules with
  | [] => Ok noMatch
  | rule :: rest =>
      m <- matchConditions (when rule) input ;;
      if m then Ok (fires rule) else evaluate rest input
  end.

(** [rule.when.rule_type]: reading a property of [null] or [undefined]
    throws; a number, a boolean, a string and an array have no such property. *)
Definition ruleTypeCondition (rule : Rule) : result value :=
  match when rule with
  | VUndefined | VNull => TypeError
  | VObj fs => Ok (getOwn fs "rule_type")
  | VBool _ | VNum _ | VStr _ | VArr _ => Ok VUndefined
  end.

(** [ruleType] is declared a string; the runner passes whatever truthy value
    the input holds under [rule_type]. *)
Definition evaluateByType (rules : list Rule) (ruleType : value) (input : obj)
  : result EvaluationResult :=
  filteredRules <- filterR (fun rule => c <- ruleTypeCondition rule ;; Ok (strictEq c ruleType)) rules ;;
  evaluate filteredRules input.

End Evaluator.

(** ** src/runner.ts *)
Module Runner.
Import JS Evaluator.

(** [interface TestCase]; [input] and [expect] are records, as declared. *)
Record TestCase : Type := mkTest {
  name : string;
  input : obj;
  expect : obj
}.

(** The text [generateReason] returns, by the template it is built from:
    - [NoRuleMatched]: 'No rule matched the input. Check your rule conditions.'
    - [MatchedBefore a e]: `Rule '${a}' matched before '${e}'. Check rule ordering.`
    - [ExpectedButMatched e a]: `Expected rule '${e}' to match, but '${a}' matched instead.`
    - [OutputMismatch k e a]:
      `Output mismatch: expected ${k}=${JSON.stringify(e)}, got ${JSON.stringify(a)}`
    - [UnknownMismatch]: 'Unknown mismatch' *)
Inductive reasonText : Type :=
| NoRuleMatched
| MatchedBefore (actualId : string) (expectedId : value)
| ExpectedButMatched (expectedId : value) (actualId : string)
| OutputMismatch (key : string) (expectedValue actualValue : value)
| UnknownMismatch.

(** [interface TestResult]; [test_name] and [test_input] are its fields
    [name] and [input]. *)
Record TestResult : Type := mkTestResult {
  file : string;
  test_name : string;
  passed : bool;
  test_input : obj;
  expected : obj;
  actual : EvaluationResult;
  reason : option reasonText
}.

Definition isNull (v : value) : bool :=
  match v with
  | VNull => true
  | _ => false
  end.

Section ArrayLoop.
Context (body : string -> value -> bool).

(** [for (const key of Object.keys(xs))] over an array, from index [i] on,
    as long as [body] holds. *)
Fixpoint allIndexedFrom (i : nat) (xs : list value) : bool :=
  match xs with
  | [] => true
  | x :: rest => body (indexKey i) x && allIndexedFrom (S i) rest
  end.
End ArrayLoop.

Fixpoint deepEqual (a b : value) {struct a} : bool :=
  if strictEq a b then true
  else if negb (jstype_eqb (typeof a) (typeof b)) then false
  else if isNull a || isNull b then strictEq a b
  else
    let bKeys := keys b in
    let sameAt (key : string) (av : value) : bool :=
      includesKey bKeys key && deepEqual av (getOwn (entries b) key) in
    match a with
    | VObj fs =>
        if negb (Nat.eqb (List.length (keys a)) (List.length bKeys)) then false
        else forallb (fun e => let '(key, av) := e in sameAt key av) fs
    | VArr xs =>
        if negb (Nat.eqb (List.length (keys a)) (List.length bKeys)) then false
        else allIndexedFrom sameAt 0 xs
    | _ => false
    end.

(** [actual.matched_rule] as a value: a string or [null]. *)
Definition matchedRuleValue (r : EvaluationResult) : value :=
  match matched_rule r with
  | Some s => VStr s
  | None => VNull
  end.

(** [rules.indexOf(rules.find((r) => r.id === v))]: [find] returns the first
    rule of that id, and [indexOf] the first position that holds this very
    object, which no earlier position does. *)
Fixpoint positionOfId (rules : list Rule) (v : value) : option nat :=
  match rules with
  | [] => None
  | r :: rest =>
      if strictEq (VStr (id r)) v then Some 0
      else option_map S (positionOfId rest v)
  end.

(** The entries of [{ ...expected }] after [delete expectedOutput.matched_rule]:
    the spread defines every property of [expected] on the copy, one of name
    [__proto__] included. *)
Definition withoutMatchedRule (expected : obj) : obj :=
  filter (fun e => negb (String.eqb (fst e) "matched_rule")) expected.

(** The entries of the [expectedOutput] that [runTest] fills by
    [expectedOutput[key] = value] from the entries of [expect] other than
    [matched_rule].  An assignment to [__proto__] goes to the setter of
    [Object.prototype]: it changes the prototype of [expectedOutput], or
    nothing, and adds no property; the properties added are the others, in
    the order of [expect]. *)
Definition assignedOutput (expect : obj) : obj :=
  filter (fun e => negb (String.eqb (fst e) "matched_rule")
                   && negb (String.eqb (fst e) "__proto__")) expect.

(** The loop of [generateReason] over [Object.entries(expectedOutput)]. *)
Fixpoint firstMismatch (expectedOutput : obj) (out : obj) : reasonText :=
  match expectedOutput with
  | [] => UnknownMismatch
  | (key, expectedValue) :: rest =>
      let actualValue := getProperty out key in
      if negb (deepEqual expectedValue actualValue)
      then OutputMismatch key expectedValue actualValue
      else firstMismatch rest out
  end.

(** [expected.matched_rule] is taken to be as [TestCase] declares it, a
    string or [null], if it is there.  The two templates that print it
    convert it to a text; on an object that conversion can throw (see
    [toPrimitiveThrows]), and the reason of such a test is not modelled: the
    properties of the reason are stated for declared expectations. *)
Definition generateReason (expected : obj) (actual : EvaluationResult) (rules : list Rule)
  : reasonText :=
  let e := getOwn expected "matched_rule" in
  if negb (strictEq e VUndefined) && negb (strictEq e (matchedRuleValue actual)) then
    match matched_rule actual with
    | None => NoRuleMatched
    | Some a =>
        match positionOfId rules e, positionOfId rules (VStr a) with
        | Some expectedIndex, Some actualIndex =>
            if Nat.ltb actualIndex expectedIndex then MatchedBefore a e
            else ExpectedButMatched e a
        | _, _ => ExpectedButMatched e a
        end
    end
  else firstMismatch (withoutMatchedRule expected) (output actual).

Definition runTest (test : TestCase) (rules : list Rule) (file : string)
  : result TestResult :=
  let ruleType := getOwn (input test) "rule_type" in
  actual <- (if truthy ruleType
             then evaluateByType rules ruleType (input test)
             else evaluate rules (input test)) ;;
  let expectedOutput := assignedOutput (expect test) in
  let expectedMatchedRule := getOwn (expect test) "matched_rule" in
  let matchedRuleCorrect :=
    strictEq expectedMatchedRule VUndefined
    || strictEq expectedMatchedRule (matchedRuleValue actual) in
  let outputCorrect :=
    forallb (fun e => deepEqual (snd e) (getProperty (output actual) (fst e)))
      expectedOutput in
  let passed := matchedRuleCorrect && outputCorrect in
  Ok {| file := file;
        test_name := name test;
        passed := passed;
        test_input := input test;
        expected := expect test;
        actual := actual;
        reason := if passed then None
                  else Some (generateReason (expect test) actual rules) |}.

(** [tests.map((test) => runTest(test, rules, file))]; a throw in one test
    ends the whole map. *)
Fixpoint runTests (tests : list TestCase) (rules : list Rule) (file : string)
  : result (list TestResult) :=
  match tests with
  | [] => Ok []
  | test :: rest =>
      r <- runTest test rules file ;;
      rs <- runTests rest rules file ;;
      Ok (r :: rs)
  end.

End Runner.

(** ** src/loader.ts

    [loadRuleFile] and [loadTestFile] read a file, parse it and check the
    parsed document.  The checks are what is embedded: the functions take the
    value [parse(content)] returned.  Reading and parsing are input/output and
    are not modelled, nor is [findYamlFiles], which walks the file system. *)
Module Loader.
Import JS.

(** The [message] of a [ValidationError], by the template it is built from:
    - [NotAnObject]: 'File is empty or not a valid YAML object'
    - [UnsupportedVersion v]: `Unsupported version: ${v}. Expected version: 1`
    - [NoRulesArray]: 'Missing or invalid "rules" array'
    - [RuleWithoutId i]: `Rule at index ${i} is missing a valid "id" field`
    - [RuleWithoutWhen id]: `Rule "${id}" is missing a "when" field`
    - [RuleWithoutThen id]: `Rule "${id}" is missing a valid "then" field`
    - [NoTestsArray]: 'Missing or invalid "tests" array'
    - [TestWithoutName i]: `Test at index ${i} is missing a valid "name" field`
    - [TestWithoutInput n]: `Test "${n}" is missing a valid "input" field`
    - [TestWithoutExpect n]: `Test "${n}" is missing a valid "expect" field`
    - [Thrown]: `Failed to parse YAML: ${message}`, from the [catch] clause,
      with the message of what was thrown. *)
Inductive problem : Type :=
| NotAnObject
| UnsupportedVersion (version : value)
| NoRulesArray
| RuleWithoutId (index : nat)
| RuleWithoutWhen (id : value)
| RuleWithoutThen (id : value)
| NoTestsArray
| TestWithoutName (index : nat)
| TestWithoutInput (name : value)
| TestWithoutExpect (name : value)
| Thrown.

(** [interface ValidationError]; the loader sets neither [line] nor [hint]. *)
Record ValidationError : Type := mkError {
  error_file : string;
  message : problem
}.

(** [LoadedRules | ValidationError] and [LoadedTests | ValidationError]: a
    file with the list it holds ([rules] or [tests]), or an error.  The
    loader produces the items as parsed ([A] is [value]); its callers use
    them at the declared types [Rule] and [TestCase]. *)
Inductive loaded (A : Type) : Type :=
| Loaded (file : string) (items : list A)
| Invalid (e : ValidationError).

Arguments Loaded {A} file items.
Arguments Invalid {A} e.

(** ['message' in result] *)
Definition isValidationError {A : Type} (r : loaded A) : bool :=
  match r with
  | Invalid _ => true
  | Loaded _ _ => false
  end.

(** [v.k] for the property names the loader reads ([version], [rules],
    [tests], [id], [when], [then], [name], [input], [expect]): it throws on
    [null] and [undefined]; an array, a string, a number and a boolean have
    no property of these names. *)
Definition prop (v : value) (k : string) : result value :=
  match v with
  | VUndefined | VNull => TypeError
  | VObj fs => Ok (getOwn fs k)
  | VBool _ | VNum _ | VStr _ | VArr _ => Ok VUndefined
  end.

Definition isObjectType (v : value) : bool := jstype_eqb (typeof v) TObject.
Definition isStringType (v : value) : bool := jstype_eqb (typeof v) TString.

(** The checks of one rule, in the order of the source; [None] when the
    rule passes them. *)
Definition checkRule (i : nat) (rule : value) : result (option problem) :=
  id <- prop rule "id" ;;
  if negb (truthy id) || negb (isStringType id) then Ok (Some (RuleWithoutId i)) else
  w <- prop rule "when" ;;
  if strictEq w VUndefined then Ok (Some (RuleWithoutWhen id)) else
  t <- prop rule "then" ;;
  if strictEq t VUndefined || negb (isObjectType t) then Ok (Some (RuleWithoutThen id)) else
  Ok None.

(** [for (let i = ...; i < parsed.rules.length; i++)], from index [i] on. *)
Fixpoint checkRules (i : nat) (rules : list value) : result (option problem) :=
  match rules with
  | [] => Ok None
  | rule :: rest =>
      p <- checkRule i rule ;;
      match p with
      | Some e => Ok (Some e)
      | None => checkRules (S i) rest
      end
  end.

(** The body of the [try] block of [loadRuleFile], after the parse. *)
Definition checkRuleDocument (parsed : value) : result (problem + list value) :=
  if negb (truthy parsed) || negb (isObjectType parsed) then Ok (inl NotAnObject) else
  version <- prop parsed "version" ;;
  if negb (strictEq version (VNum 1)) then Ok (inl (UnsupportedVersion version)) else
  rules <- prop parsed "rules" ;;
  match rules with
  | VArr rs =>
      p <- checkRules 0 rs ;;
      match p with
      | Some e => Ok (inl e)
      | None => Ok (inr rs)
      end
  | _ => Ok (inl NoRulesArray)
  end.

(** What a checked document becomes; a throw is caught and reported. *)
Definition report (filePath : string) (r : result (problem + list value)) : loaded value :=
  match r with
  | Ok (inr items) => Loaded filePath items
  | Ok (inl p) => Invalid {| error_file := filePath; message := p |}
  | TypeError | Uncoerced => Invalid {| error_file := filePath; message := Thrown |}
  end.

Definition loadRuleFile (filePath : string) (parsed : value) : loaded value :=
  report filePath (checkRuleDocument parsed).

Definition checkTest (i : nat) (test : value) : result (option problem) :=
  name <- prop test "name" ;;
  if negb (truthy name) || negb (isStringType name) then Ok (Some (TestWithoutName i)) else
  input <- prop test "input" ;;
  if strictEq input VUndefined || negb (isObjectType input)
  then Ok (Some (TestWithoutInput name)) else
  expect <- prop test "expect" ;;
  if strictEq expect VUndefined || negb (isObjectType expect)
  then Ok (Some (TestWithoutExpect name)) else
  Ok None.

Fixpoint checkTests (i : nat) (tests : list value) : result (option problem) :=
  match tests with
  | [] => Ok None
  | test :: rest =>
      p <- checkTest i test ;;
      match p with
      | Some e => Ok (Some e)
      | None => checkTests (S i) rest
      end
  end.

Definition checkTestDocument (parsed : value) : result (problem + list value) :=
  if negb (truthy parsed) || negb (isObjectType parsed) then Ok (inl NotAnObject) else
  version <- prop parsed "version" ;;
  if negb (strictEq version (VNum 1)) then Ok (inl (UnsupportedVersion version)) else
  tests <- prop parsed "tests" ;;
  match tests with
  | VArr ts =>
      p <- checkTests 0 ts ;;
      match p with
      | Some e => Ok (inl e)
      | None => Ok (inr ts)
      end
  | _ => Ok (inl NoTestsArray)
  end.

Definition loadTestFile (filePath : string) (parsed : value) : loaded value :=
  report filePath (checkTestDocument parsed).

End Loader.

(** ** src/index.ts, the [check] command

    What the command computes from the files it loaded: the state it keeps
    ([hasErrors], [allRules], [allTestResults]), the counts of the summary and
    the exit code.  The lines it prints are not modelled.  The command takes
    the load result of every rule file and of every test file, in the order
    [findYamlFiles] lists them, at the types [loadRuleFile] and [loadTestFile]
    declare. *)
Module Cli.
Import JS Evaluator Runner Loader.

(** The first loop: a rule file that failed to load sets [hasErrors]; the
    rules of the others are appended to [allRules]. *)
Fixpoint loadAllRules (ruleLoads : list (loaded Rule)) (hasErrors : bool)
  (allRules : list Rule) : bool * list Rule :=
  match ruleLoads with
  | [] => (hasErrors, allRules)
  | Invalid _ :: rest => loadAllRules rest true allRules
  | Loaded _ rules :: rest => loadAllRules rest hasErrors (allRules ++ rules)
  end.

Definition countPassed (results : list TestResult) : nat :=
  List.length (filter (fun r => passed r) results).

Definition countFailed (results : list TestResult) : nat :=
  List.length (filter (fun r => negb (passed r)) results).

(** The second loop: the tests of every file that loaded are run against
    [allRules]; a file that failed to load, or one with a failed test, sets
    [hasErrors]. *)
Fixpoint runAllTests (testLoads : list (loaded TestCase)) (allRules : list Rule)
  (hasErrors : bool) (allTestResults : list TestResult)
  : result (bool * list TestResult) :=
  match testLoads with
  | [] => Ok (hasErrors, allTestResults)
  | Invalid _ :: rest => runAllTests rest allRules true allTestResults
  | Loaded file tests :: rest =>
      testResults <- runTests tests allRules file ;;
      runAllTests rest allRules
        (if Nat.ltb 0 (countFailed testResults) then true else hasErrors)
        (allTestResults ++ testResults)
  end.

(** The arguments of [formatSummary] and of [process.exit]. *)
Record Summary : Type := mkSummary {
  totalTests : nat;
  passedTests : nat;
  failedTests : nat;
  exitCode : nat
}.

(** A throw of [runTests] is caught nowhere: the command ends on it. *)
Definition check (ruleLoads : list (loaded Rule)) (testLoads : list (loaded TestCase))
  : result Summary :=
  let '(ruleErrors, allRules) := loadAllRules ruleLoads false [] in
  st <- runAllTests testLoads allRules ruleErrors [] ;;
  let '(hasErrors, allTestResults) := st in
  Ok {| totalTests := List.length allTestResults;
        passedTests := countPassed allTestResults;
        failedTests := countFailed allTestResults;
        exitCode := if hasErrors then 1 else 0 |}.

End Cli.

(** ** The notions the specification is stated with *)
Module Spec.
Import JS Evaluator Runner.

(** The condition of rule [q] does not match [input]. *)
Definition noMatchOn (input : obj) (q : Rule) : Prop :=
  matchConditions (when q) input = Ok false.

(** [l1] is an order-preserved subsequence of [l2]. *)
Inductive Subseq {A : Type} : list A -> list A -> Prop :=
| Subseq_nil : Subseq [] []
| Subseq_skip (x : A) (l1 l2 : list A) : Subseq l1 l2 -> Subseq l1 (x :: l2)
| Subseq_keep (x : A) (l1 l2 : list A) : Subseq l1 l2 -> Subseq (x :: l1) (x :: l2).

(** The condition of [r] has a top-level constraint on the discriminator
    field [rule_type] equal to [d]. *)
Definition constrainsType (d : string) (r : Rule) : bool :=
  match when r with
  | VObj fs =>
      match lookup "rule_type" fs with
      | Some (VStr s) => String.eqb s d
      | _ => false
      end
  | _ => false
  end.

Definition nullish (v : value) : bool :=
  match v with
  | VUndefined | VNull => true
  | _ => false
  end.

(** The comparison bound [k] of an operator object is absent or a number,
    as [interface ComparisonOperator] declares it. *)
Definition numericBound (fs : obj) (k : string) : Prop :=
  lookup k fs = None \/ exists n, lookup k fs = Some (VNum n).

Definition numericBounds (fs : obj) : Prop :=
  forall k, In k comparisonKeys -> numericBound fs k.

(** The bound [k] of an operator object, when it carries one. *)
Definition bound (fs : obj) (k : string) : option float :=
  match lookup k fs with
  | Some (VNum n) => Some n
  | _ => None
  end.

Definition holdsIfPresent (rel : float -> float -> bool) (x : float) (b : option float)
  : bool :=
  match b with
  | Some n => rel x n
  | None => true
  end.

(** Every bound that the operator object carries holds of [x]:
    [x >= gte], [x <= lte], [x > gt] and [x < lt]. *)
Definition presentBoundsHold (fs : obj) (x : float) : bool :=
  holdsIfPresent ge x (bound fs "gte")
  && holdsIfPresent le x (bound fs "lte")
  && holdsIfPresent gt x (bound fs "gt")
  && holdsIfPresent lt x (bound fs "lt").

Definition isNaN (v : value) : bool :=
  match v with
  | VNum x => PrimFloat.is_nan x
  | _ => false
  end.

(** An array or an object. *)
Definition compound (v : value) : bool :=
  match v with
  | VArr _ | VObj _ => true
  | _ => false
  end.

(** A field constraint of a shape the matcher does not know: an array or an
    object that is neither a comparison operator nor an [in] operator (an
    object without a comparison key whose [in] is missing or not a
    sequence). *)
Definition unrecognized (v : value) : bool :=
  compound v && negb (isComparisonOperator v) && negb (isInOperator v).

(** Every comparison bound of [v] becomes a number with no text to parse:
    it is absent, a number, a boolean, [null], or an object without a
    [toString] property (which becomes NaN). *)
Definition coercible (v : value) : bool :=
  forallb (fun k => match toNumber (getOwn (entries v) k) with
                    | Ok _ => true
                    | _ => false
                    end) comparisonKeys.

(** No comparison bound of [v] is an object with a [toString] property, or
    an array that holds such an object, at any depth of arrays. *)
Definition convertible (v : value) : bool :=
  forallb (fun k => negb (toPrimitiveThrows (getOwn (entries v) k))) comparisonKeys.

#[local] Unset Elimination Schemes.
(** A condition tree that is an array or an object, whose [all] and [any]
    sequences hold arrays and objects only, at every depth, and whose field
    constraints satisfy [okField]. *)
Inductive Shaped (okField : value -> Prop) : value -> Prop :=
| Shaped_arr (xs : list value) :
    Forall okField xs -> Shaped okField (VArr xs)
| Shaped_obj (fs : obj) :
    (forall k v, In (k, v) fs -> reserved k = false -> okField v) ->
    (forall cs, lookup "all" fs = Some (VArr cs) -> Forall (Shaped okField) cs) ->
    (forall cs, lookup "any" fs = Some (VArr cs) -> Forall (Shaped okField) cs) ->
    Shaped okField (VObj fs).
#[local] Set Elimination Schemes.

(** The bounds of a field constraint can be converted; with [strict], to a
    number that the model computes. *)
Definition fieldOk (strict : bool) (v : value) : Prop :=
  if strict then coercible v = true else convertible v = true.

(** An outcome that is no throw and, with [strict], is a boolean. *)
Definition settles (strict : bool) (r : result bool) : Prop :=
  match r with
  | Ok _ => True
  | TypeError => False
  | Uncoerced => strict = false
  end.

(** The trees on which the matcher does not throw, and those on which it is
    shown to return a boolean. *)
Definition TreeShaped : value -> Prop := Shaped (fieldOk false).
Definition WellTyped : value -> Prop := Shaped (fieldOk true).

(** One step of [deepEqual] on two arrays or objects: [key] is a key of [b]
    and the values under [key] are deeply equal. *)
Definition sameProperty (b : value) (e : string * value) : bool :=
  includesKey (keys b) (fst e) && deepEqual (snd e) (getOwn (entries b) (fst e)).

(** The evaluation result a test run compares against. *)
Definition actualOf (r : result TestResult) : result EvaluationResult :=
  res <- r ;; Ok (actual res).

(** The expected output field [p] agrees with the actual output [out]. *)
Definition fieldAgrees (out : obj) (p : string * value) : bool :=
  deepEqual (snd p) (getProperty out (fst p)).

(** The first rule of id [s] in the list stands at position [i]. *)
Definition firstAt (rules : list Rule) (s : string) (i : nat) : Prop :=
  (exists r, nth_error rules i = Some r /\ id r = s)
  /\ (forall j r, j < i -> nth_error rules j = Some r -> id r <> s).

(** The rules have pairwise distinct ids. *)
Definition uniqueIds (rules : list Rule) : Prop := NoDup (map id rules).

(** The expectations of a test as [interface TestCase] declares them and as
    a document holds them: [matched_rule], if stated, is [null] or a string,
    and no key holds [undefined]. *)
Definition declared (expect : obj) : Prop :=
  (lookup "matched_rule" expect = None
   \/ lookup "matched_rule" expect = Some VNull
   \/ exists x, lookup "matched_rule" expect = Some (VStr x))
  /\ (forall k v, In (k, v) expect -> v <> VUndefined).

(** What the test says of the matched rule holds of [actual]: it says
    nothing, or it says [null] and no rule matched, or it names the rule that
    matched. *)
Definition ruleAsExpected (expect : obj) (actual : EvaluationResult) : Prop :=
  lookup "matched_rule" expect = None
  \/ (lookup "matched_rule" expect = Some VNull /\ matched_rule actual = None)
  \/ (exists x, lookup "matched_rule" expect = Some (VStr x)
                /\ matched_rule actual = Some x).

(** A rule was expected by name and it is not the rule that matched:
    [expected.matched_rule !== undefined &&
     expected.matched_rule !== actual.matched_rule]. *)
Definition wrongRule (e : value) (actual : EvaluationResult) : bool :=
  negb (strictEq e VUndefined) && negb (strictEq e (matchedRuleValue actual)).

(** The matcher, run on the tree [c], reads the field [k] of the input:
    [k] is a plain key of [c], or it is read by a tree of an [all] or [any]
    sequence of [c]. *)
Inductive Reads (k : string) : value -> Prop :=
| Reads_field (c v : value) :
    In (k, v) (entries c) -> reserved k = false -> Reads k c
| Reads_group (fs : obj) (g : string) (cs : list value) (c : value) :
    reserved g = true -> lookup g fs = Some (VArr cs) ->
    In c cs -> Reads k c -> Reads k (VObj fs).

(** The two inputs hold the same value under [k]. *)
Definition agreeOn (input input' : obj) (k : string) : Prop :=
  getOwn input k = getOwn input' k.

(** A string, a boolean, [null], or a number other than NaN. *)
Definition plainScalar (v : value) : bool :=
  match v with
  | VNull | VBool _ | VStr _ => true
  | VNum x => negb (PrimFloat.is_nan x)
  | VUndefined | VArr _ | VObj _ => false
  end.

(** A constraint as a YAML document can hold it: it is not [undefined], and
    the list of an [in] operator holds no [undefined]. *)
Definition noUndefined (c : value) : bool :=
  negb (strictEq c VUndefined)
  && match c with
     | VObj fs =>
         match lookup "in" fs with
         | Some (VArr xs) => negb (existsb (fun x => strictEq x VUndefined) xs)
         | _ => true
         end
     | _ => true
     end.

(** A non-empty string. *)
Definition nonEmptyString (v : value) : Prop :=
  exists s, v = VStr s /\ s <> "".

(** A rule entry that the loader lets through: an object with a non-empty
    string [id], a [when] of any value and a [then] of type object ([null]
    and arrays included). *)
Definition validRule (rule : value) : Prop :=
  exists fs,
    rule = VObj fs
    /\ nonEmptyString (getOwn fs "id")
    /\ getOwn fs "when" <> VUndefined
    /\ typeof (getOwn fs "then") = TObject.

(** A test entry that the loader lets through: an object with a non-empty
    string [name], and an [input] and an [expect] of type object. *)
Definition validTest (test : value) : Prop :=
  exists fs,
    test = VObj fs
    /\ nonEmptyString (getOwn fs "name")
    /\ typeof (getOwn fs "input") = TObject
    /\ typeof (getOwn fs "expect") = TObject.

(** A document of version 1 whose list, under [listKey], is [items]. *)
Definition versionOne (listKey : string) (parsed : value) (items : list value) : Prop :=
  exists fs,
    parsed = VObj fs
    /\ strictEq (getOwn fs "version") (VNum 1) = true
    /\ getOwn fs listKey = VArr items.

(** [v.k] on a value that is neither [null] nor [undefined], for the
    property names of the loader. *)
Definition field (v : value) (k : string) : value :=
  match v with
  | VObj fs => getOwn fs k
  | _ => VUndefined
  end.

Definition isNonEmptyString (v : value) : bool :=
  match v with
  | VStr s => negb (String.eqb s "")
  | _ => false
  end.

(** The problem the loader reports for a rule entry that it does not let
    through, at index [i]: a throw on [null]; else the [id], if it is not a
    non-empty string; else the [when], if it is missing; else the [then]. *)
Definition ruleProblem (i : nat) (rule : value) : Loader.problem :=
  if nullish rule then Loader.Thrown
  else if negb (isNonEmptyString (field rule "id")) then Loader.RuleWithoutId i
  else if strictEq (field rule "when") VUndefined
       then Loader.RuleWithoutWhen (field rule "id")
  else Loader.RuleWithoutThen (field rule "id").

(** The items of a file that loaded; none for one that did not. *)
Definition itemsOf {A : Type} (l : Loader.loaded A) : list A :=
  match l with
  | Loader.Loaded _ items => items
  | Loader.Invalid _ => []
  end.

(** A test object and a test document, as parsed. *)
Definition testObject (name : string) (input expect : value) : value :=
  VObj [("name", VStr name); ("input", input); ("expect", expect)].

Definition testDocument (tests : list value) : value :=
  VObj [("version", VNum 1); ("tests", VArr tests)].

(** A rule object and a rule document, as parsed. *)
Definition ruleObject (rid : string) (w th : value) : value :=
  VObj [("id", VStr rid); ("when", w); ("then", th)].

Definition ruleDocument (rules : list value) : value :=
  VObj [("version", VNum 1); ("rules", VArr rules)].

End Spec.

(** ** Rules and trees the properties are tried on *)
Module Examples.
Import JS Evaluator Runner.

(** The two rules of the specification's end-to-end example, and a rule
    whose condition is [null]. *)
Definition ruleVip : Rule :=
  mkRule "r1" (VObj [("tier", VStr "vip")]) (VObj [("pct", VNum 30)]).
Definition ruleDefault : Rule :=
  mkRule "r2" (VObj []) (VObj [("pct", VNum 0)]).
Definition ruleBroken : Rule :=
  mkRule "r3" VNull (VObj []).

(** Two rules scoped by [rule_type]. *)
Definition rulePricing : Rule :=
  mkRule "p1" (VObj [("rule_type", VStr "pricing"); ("tier", VStr "vip")])
    (VObj [("pct", VNum 30)]).
Definition ruleShipping : Rule :=
  mkRule "s1" (VObj [("rule_type", VStr "shipping")]) (VObj [("free", VBool true)]).

(** A tree with fields, an [all] and an [any] sequence; the second entry of
    [any] is the empty tree. *)
Definition nestedTree : value :=
  VObj [("tier", VStr "vip");
        ("qty", VObj [("gte", VNum 10)]);
        ("all", VArr [VObj [("region", VObj [("in", VArr [VStr "us"])])]]);
        ("any", VArr [VObj [("flag", VObj [("in", VStr "yes")])]; VObj []])].

(** The rules of the specification's reason-selection case. *)
Definition ruleA : Rule := mkRule "A" (VObj [("tier", VStr "vip")]) (VObj []).
Definition ruleB : Rule := mkRule "B" (VObj []) (VObj []).

End Examples.

(** ** Properties *)

Import JS Evaluator Runner Spec Examples.

(** *** Values *)

(** Induction over values, with the hypothesis for every element of an array
    and every property of an object. *)
Lemma value_ind (P : value -> Prop)
  (Hundef : P VUndefined) (Hnull : P VNull)
  (Hbool : forall b, P (VBool b)) (Hnum : forall x, P (VNum x))
  (Hstr : forall s, P (VStr s))
  (Harr : forall xs, Forall P xs -> P (VArr xs))
  (Hobj : forall fs, Forall (fun e => P (snd e)) fs -> P (VObj fs))
  : forall v, P v.
Proof.
  fix go 1. intros [| | b | x | s | xs | fs].
  - exact Hundef.
  - exact Hnull.
  - apply Hbool.
  - apply Hnum.
  - apply Hstr.
  - apply Harr. induction xs as [| x xs IH]; constructor; [apply go | exact IH].
  - apply Hobj. induction fs as [| e fs IH]; constructor; [apply go | exact IH].
Qed.

Lemma withOwn_lookup {R : Type} (k : string) (absent : R) (present : value -> R) (o : obj) :
  withOwn k absent present o =
  match lookup k o with
  | Some v => present v
  | None => absent
  end.
Proof.
  induction o as [| [k' v] rest IH]; simpl; [reflexivity |].
  destruct (String.eqb k' k); [reflexivity | exact IH].
Qed.

Lemma getOwn_cons_same (k : string) (v : value) (o : obj) :
  getOwn ((k, v) :: o) k = v.
Proof. unfold getOwn; simpl. now rewrite String.eqb_refl. Qed.

Lemma getProperty_cons_same (k : string) (v : value) (o : obj) :
  getProperty ((k, v) :: o) k = v.
Proof. unfold getProperty. cbn [lookup]. now rewrite String.eqb_refl. Qed.

Lemma getOwn_cons_other (k k' : string) (v : value) (o : obj) :
  String.eqb k' k = false -> getOwn ((k', v) :: o) k = getOwn o k.
Proof. unfold getOwn; simpl. now intros ->. Qed.

(** *** The matcher *)

(** [matchConditions] on an object, step by step as the source has it. *)
Lemma matchConditions_obj (fs : obj) (input : obj) :
  matchConditions (VObj fs) input =
  (ok <- fieldsMatch fs input ;;
   if negb ok then Ok false else
   okAll <- allClause fs input ;;
   if negb okAll then Ok false else
   okAny <- anyClause fs input ;;
   if negb okAny then Ok false else
   Ok true).
Proof.
  unfold allClause, anyClause. simpl.
  rewrite !withOwn_lookup.
  destruct (fieldsMatch fs input) as [[|] | |]; reflexivity.
Qed.

(** *** The evaluator *)

Lemma evaluate_skip (pre rest : list Rule) (input : obj) :
  Forall (noMatchOn input) pre ->
  evaluate (pre ++ rest) input = evaluate rest input.
Proof.
  induction 1 as [| q pre Hq _ IH]; simpl; [reflexivity |].
  unfold noMatchOn in Hq. now rewrite Hq.
Qed.

Lemma evaluate_inv (rules : list Rule) (input : obj) (res : EvaluationResult) :
  evaluate rules input = Ok res ->
  (exists pre r post,
      rules = pre ++ r :: post /\ Forall (noMatchOn input) pre /\
      matchConditions (when r) input = Ok true /\ res = fires r)
  \/ (Forall (noMatchOn input) rules /\ res = noMatch).
Proof.
  revert res. induction rules as [| q rest IH]; simpl; intros res H.
  - right. split; [constructor | congruence].
  - destruct (matchConditions (when q) input) as [[|] | |] eqn:Hq; simpl in H; try discriminate.
    + left. exists [], q, rest. repeat split; [constructor | assumption | congruence].
    + destruct (IH res H) as [(pre & r & post & -> & Hpre & Hr & ->) | [Hall ->]].
      * left. exists (q :: pre), r, post. repeat split; auto.
      * right. split; auto.
Qed.

(** C1: [evaluate] returns the first rule, in list order, whose condition
    matches: if [r] matches and no rule before it does, the result names [r]
    and carries the properties of its [then] object (a shallow copy: the same
    properties with the same values), whatever the rules after [r] are, so
    none of them is evaluated, even one on which the matcher would throw; if no
    rule matches, the result is [{ matched_rule: null, output: {} }].  Every
    result of [evaluate] is one of the two. *)
Theorem evaluate_first_match (R : list Rule) (I : obj) :
  (forall pre r post,
      R = pre ++ r :: post ->
      Forall (noMatchOn I) pre ->
      matchConditions (when r) I = Ok true ->
      evaluate R I = Ok {| matched_rule := Some (id r); output := spread (then_ r) |}
      /\ (forall fs, then_ r = VObj fs ->
          evaluate R I = Ok {| matched_rule := Some (id r); output := fs |}))
  /\ (Forall (noMatchOn I) R ->
      evaluate R I = Ok {| matched_rule := None; output := [] |})
  /\ (forall res, evaluate R I = Ok res ->
      (exists pre r post,
          R = pre ++ r :: post /\ Forall (noMatchOn I) pre /\
          matchConditions (when r) I = Ok true /\
          res = {| matched_rule := Some (id r); output := spread (then_ r) |})
      \/ (Forall (noMatchOn I) R /\ res = {| matched_rule := None; output := [] |})).
Proof.
  split; [| split].
  - intros pre r post -> Hpre Hr.
    assert (E : evaluate (pre ++ r :: post) I = Ok (fires r)).
    { rewrite (evaluate_skip pre (r :: post) I Hpre). simpl. now rewrite Hr. }
    split; [exact E |].
    intros fs Hfs. rewrite E. unfold fires. now rewrite Hfs.
  - intros Hall.
    rewrite <- (app_nil_r R). now rewrite (evaluate_skip R [] I Hall).
  - intros res H. exact (evaluate_inv R I res H).
Qed.

(** The rules of the specification's end-to-end example, followed by a rule
    on which the matcher would throw: on a standard customer the catch-all
    fires and the third rule is not looked at. *)
Lemma evaluate_first_match_witness :
  evaluate [ruleVip; ruleDefault; ruleBroken] [("tier", VStr "standard")]
  = Ok {| matched_rule := Some "r2"; output := [("pct", VNum 0)] |}.
Proof.
  destruct (evaluate_first_match [ruleVip; ruleDefault; ruleBroken]
              [("tier", VStr "standard")]) as [H _].
  destruct (H [ruleVip] ruleDefault [ruleBroken] eq_refl) as [_ H2].
  - constructor; [reflexivity | constructor].
  - reflexivity.
  - exact (H2 _ eq_refl).
Defined.

Lemma evaluate_app_last (rs : list Rule) (c : Rule) (I : obj) :
  matchConditions (when c) I = Ok true ->
  evaluate (rs ++ [c]) I =
  (res <- evaluate rs I ;;
   Ok (match matched_rule res with
       | Some _ => res
       | None => fires c
       end)).
Proof.
  intros Hc. induction rs as [| q rest IH]; simpl.
  - now rewrite Hc.
  - destruct (matchConditions (when q) I) as [[|] | |]; simpl; auto.
Qed.

(** C7: a condition tree without keys matches every input.  A rule with an
    empty condition at the end of the list therefore fires when no earlier
    rule matches, and when an earlier rule matches the result is that of the
    first such rule: the result with the catch-all appended is the result
    without it whenever that names a rule. *)
Theorem catch_all_last (rs : list Rule) (rid : string) (th : value) (I : obj) :
  matchConditions (VObj []) I = Ok true
  /\ (Forall (noMatchOn I) rs ->
      evaluate (rs ++ [mkRule rid (VObj []) th]) I
      = Ok {| matched_rule := Some rid; output := spread th |})
  /\ (forall pre r post,
      rs = pre ++ r :: post ->
      Forall (noMatchOn I) pre ->
      matchConditions (when r) I = Ok true ->
      evaluate (rs ++ [mkRule rid (VObj []) th]) I = Ok (fires r))
  /\ evaluate (rs ++ [mkRule rid (VObj []) th]) I =
     (res <- evaluate rs I ;;
      Ok (match matched_rule res with
          | Some _ => res
          | None => {| matched_rule := Some rid; output := spread th |}
          end)).
Proof.
  split; [reflexivity |]. split; [| split].
  - intros Hall. rewrite (evaluate_skip rs _ I Hall). reflexivity.
  - intros pre r post -> Hpre Hr.
    rewrite <- app_assoc. rewrite (evaluate_skip pre _ I Hpre).
    simpl. now rewrite Hr.
  - apply (evaluate_app_last rs (mkRule rid (VObj []) th) I). reflexivity.
Qed.

Lemma catch_all_last_witness :
  evaluate ([ruleVip] ++ [mkRule "r2" (VObj []) (VObj [("pct", VNum 0)])])
    [("tier", VStr "standard")]
  = Ok {| matched_rule := Some "r2"; output := [("pct", VNum 0)] |}
  /\ evaluate ([ruleVip] ++ [mkRule "r2" (VObj []) (VObj [("pct", VNum 0)])])
      [("tier", VStr "vip")]
    = Ok {| matched_rule := Some "r1"; output := [("pct", VNum 30)] |}.
Proof.
  split.
  - destruct (catch_all_last [ruleVip] "r2" (VObj [("pct", VNum 0)]) [("tier", VStr "standard")])
      as (_ & H & _ & _).
    apply H. constructor; [reflexivity | constructor].
  - destruct (catch_all_last [ruleVip] "r2" (VObj [("pct", VNum 0)]) [("tier", VStr "vip")])
      as (_ & _ & H & _).
    apply (H [] ruleVip [] eq_refl); [constructor | reflexivity].
Defined.

(** *** The type filter *)

Lemma filter_Subseq {A : Type} (f : A -> bool) (l : list A) : Subseq (filter f l) l.
Proof.
  induction l as [| x l IH]; simpl; [constructor |].
  destruct (f x); constructor; exact IH.
Qed.

Lemma ruleTypeCondition_constrains (d : string) (r : Rule) :
  nullish (when r) = false ->
  (c <- ruleTypeCondition r ;; Ok (strictEq c (VStr d))) = Ok (constrainsType d r).
Proof.
  unfold ruleTypeCondition, constrainsType, getOwn.
  destruct (when r) as [| | b | x | s | xs | fs]; simpl; try discriminate; try reflexivity.
  intros _. destruct (lookup "rule_type" fs) as [[| | b | x | s | xs | gs] |]; reflexivity.
Qed.

Lemma filterR_constrains (d : string) (rules : list Rule) :
  Forall (fun r => nullish (when r) = false) rules ->
  filterR (fun rule => c <- ruleTypeCondition rule ;; Ok (strictEq c (VStr d))) rules
  = Ok (filter (constrainsType d) rules).
Proof.
  induction 1 as [| r rest Hr _ IH]; [reflexivity |].
  cbn [filterR filter]. rewrite (ruleTypeCondition_constrains d r Hr), IH. reflexivity.
Qed.

Lemma constrainsType_spec (d : string) (r : Rule) :
  constrainsType d r = true <->
  exists fs, when r = VObj fs /\ lookup "rule_type" fs = Some (VStr d).
Proof.
  unfold constrainsType. split.
  - destruct (when r) as [| | b | x | s | xs | fs]; try discriminate.
    destruct (lookup "rule_type" fs) as [[| | b | x | s | xs | gs] |] eqn:El; try discriminate.
    intros E. apply String.eqb_eq in E. subst s. exists fs. split; [reflexivity | exact El].
  - intros (fs & -> & ->). apply String.eqb_refl.
Qed.

(** C6: for rules whose condition is neither [null] nor [undefined] (a rule
    that has a condition object), [evaluateByType rules d input] is
    [evaluate filtered input], where [filtered] keeps, in their order, exactly
    the rules whose condition is an object with the property [rule_type] equal
    to the string [d]; a rule whose condition has no [rule_type] property is
    not in [filtered]. *)
Theorem evaluateByType_filtered (rules : list Rule) (d : string) (input : obj) :
  Forall (fun r => nullish (when r) = false) rules ->
  evaluateByType rules (VStr d) input = evaluate (filter (constrainsType d) rules) input
  /\ Subseq (filter (constrainsType d) rules) rules
  /\ (forall r, In r (filter (constrainsType d) rules) <->
                In r rules /\
                exists fs, when r = VObj fs /\ lookup "rule_type" fs = Some (VStr d))
  /\ (forall r fs, when r = VObj fs -> lookup "rule_type" fs = None ->
                   ~ In r (filter (constrainsType d) rules)).
Proof.
  intros Hwhen. split; [| split; [| split]].
  - unfold evaluateByType. now rewrite (filterR_constrains d rules Hwhen).
  - apply filter_Subseq.
  - intros r. rewrite filter_In, constrainsType_spec. reflexivity.
  - intros r fs Hfs Hnone Hin. apply filter_In in Hin. destruct Hin as [_ Hc].
    apply constrainsType_spec in Hc. destruct Hc as (gs & Hgs & Hl).
    rewrite Hfs in Hgs. injection Hgs as <-. congruence.
Qed.

(** Scoped to [shipping], the catch-all without a [rule_type] and the pricing
    rule are out of the filtered list. *)
Lemma evaluateByType_filtered_witness :
  evaluateByType [ruleDefault; rulePricing; ruleShipping] (VStr "shipping")
    [("rule_type", VStr "shipping")]
  = evaluate [ruleShipping] [("rule_type", VStr "shipping")].
Proof.
  apply (evaluateByType_filtered [ruleDefault; rulePricing; ruleShipping] "shipping"
           [("rule_type", VStr "shipping")]).
  repeat constructor.
Defined.

(** *** Field constraints *)

Lemma reserved_false (field : string) :
  reserved field = false ->
  String.eqb field "all" = false /\ String.eqb field "any" = false.
Proof. unfold reserved. intros H. now apply orb_false_iff in H. Qed.

(** A tree with one plain field is the constraint of that field. *)
Lemma matchConditions_single (field : string) (c : value) (input : obj) :
  reserved field = false ->
  matchConditions (VObj [(field, c)]) input = matchCondition c (getOwn input field).
Proof.
  intros Hres. rewrite matchConditions_obj. unfold allClause, anyClause.
  cbn [fieldsMatch lookup]. rewrite Hres.
  destruct (reserved_false field Hres) as [-> ->].
  destruct (matchCondition c (getOwn input field)) as [[|] | |]; reflexivity.
Qed.

Lemma boundHolds_numeric (rel : float -> float -> bool) (x : float) (fs : obj) (k : string) :
  numericBound fs k ->
  boundHolds rel x (getOwn fs k) = Ok (holdsIfPresent rel x (bound fs k)).
Proof.
  unfold numericBound, getOwn, bound. intros [H | [n H]]; rewrite H; reflexivity.
Qed.

Lemma compareValue_numeric (fs : obj) (x : float) :
  numericBounds fs ->
  compareValue (VNum x) fs = Ok (presentBoundsHold fs x).
Proof.
  intros H. unfold compareValue, presentBoundsHold.
  rewrite !boundHolds_numeric by (apply H; simpl; tauto).
  cbn [bind].
  destruct (holdsIfPresent ge x (bound fs "gte")); [| reflexivity].
  destruct (holdsIfPresent le x (bound fs "lte")); [| reflexivity].
  destruct (holdsIfPresent gt x (bound fs "gt")); [| reflexivity].
  destruct (holdsIfPresent lt x (bound fs "lt")); reflexivity.
Qed.

Lemma compareValue_not_number (a : value) (fs : obj) :
  typeof a <> TNumber -> compareValue a fs = Ok false.
Proof. destruct a; simpl; intros H; try reflexivity. now elim H. Qed.

Lemma holdsIfPresent_iff (rel : float -> float -> bool) (x : float) (fs : obj) (k : string) :
  holdsIfPresent rel x (bound fs k) = true <->
  (forall n, lookup k fs = Some (VNum n) -> rel x n = true).
Proof.
  unfold bound. destruct (lookup k fs) as [[| | b | y | s | xs | gs] |]; simpl;
    split; intros H; try reflexivity; try (intros n E; discriminate E).
  - intros n E. injection E as <-. exact H.
  - apply H. reflexivity.
Qed.

(** C3: a comparison-operator constraint (an object with at least one of
    the keys [gte], [lte], [gt], [lt]) fails on every actual value that is not
    a number, in particular on a string, on [null] and on the [undefined] read
    from a missing field; on a number, with bounds that are numbers, it holds
    iff every bound the object carries holds.  The range [{gte: 10, lte: 100}]
    on field [q] matches [q: 10] and matches neither [q: 9] nor [q: 101]. *)
Theorem comparison_operator :
  (forall fs a,
      isComparisonOperator (VObj fs) = true ->
      typeof a <> TNumber ->
      matchCondition (VObj fs) a = Ok false)
  /\ (forall fs s input field,
      isComparisonOperator (VObj fs) = true ->
      matchCondition (VObj fs) (VStr s) = Ok false
      /\ matchCondition (VObj fs) VNull = Ok false
      /\ (lookup field input = None ->
          matchCondition (VObj fs) (getOwn input field) = Ok false))
  /\ (forall fs x,
      isComparisonOperator (VObj fs) = true ->
      numericBounds fs ->
      matchCondition (VObj fs) (VNum x) = Ok (presentBoundsHold fs x)
      /\ (matchCondition (VObj fs) (VNum x) = Ok true <->
          (forall n, lookup "gte" fs = Some (VNum n) -> PrimFloat.leb n x = true)
          /\ (forall n, lookup "lte" fs = Some (VNum n) -> PrimFloat.leb x n = true)
          /\ (forall n, lookup "gt" fs = Some (VNum n) -> PrimFloat.ltb n x = true)
          /\ (forall n, lookup "lt" fs = Some (VNum n) -> PrimFloat.ltb x n = true)))
  /\ matchConditions (VObj [("q", VObj [("gte", VNum 10); ("lte", VNum 100)])])
       [("q", VNum 10)] = Ok true
  /\ matchConditions (VObj [("q", VObj [("gte", VNum 10); ("lte", VNum 100)])])
       [("q", VNum 9)] = Ok false
  /\ matchConditions (VObj [("q", VObj [("gte", VNum 10); ("lte", VNum 100)])])
       [("q", VNum 101)] = Ok false.
Proof.
  assert (NotNum : forall fs a, isComparisonOperator (VObj fs) = true ->
                     typeof a <> TNumber -> matchCondition (VObj fs) a = Ok false).
  { intros fs a Hop Ha. unfold matchCondition. rewrite Hop.
    now apply compareValue_not_number. }
  split; [exact NotNum |]. split; [| split].
  - intros fs s input field Hop. repeat split.
    + apply NotNum; [exact Hop | discriminate].
    + apply NotNum; [exact Hop | discriminate].
    + intros Hmiss. unfold getOwn. rewrite Hmiss. apply NotNum; [exact Hop | discriminate].
  - intros fs x Hop Hnum.
    assert (E : matchCondition (VObj fs) (VNum x) = Ok (presentBoundsHold fs x)).
    { unfold matchCondition. rewrite Hop. now apply compareValue_numeric. }
    split; [exact E |]. rewrite E. unfold presentBoundsHold. split.
    + intros H. injection H as H. rewrite !andb_true_iff in H.
      destruct H as [[[A B] C] D].
      repeat split; intros n Hn.
      * exact (proj1 (holdsIfPresent_iff ge x fs "gte") A n Hn).
      * exact (proj1 (holdsIfPresent_iff le x fs "lte") B n Hn).
      * exact (proj1 (holdsIfPresent_iff gt x fs "gt") C n Hn).
      * exact (proj1 (holdsIfPresent_iff lt x fs "lt") D n Hn).
    + intros (H1 & H2 & H3 & H4). f_equal. rewrite !andb_true_iff. repeat split.
      * apply (proj2 (holdsIfPresent_iff ge x fs "gte")). exact H1.
      * apply (proj2 (holdsIfPresent_iff le x fs "lte")). exact H2.
      * apply (proj2 (holdsIfPresent_iff gt x fs "gt")). exact H3.
      * apply (proj2 (holdsIfPresent_iff lt x fs "lt")). exact H4.
  - repeat split; reflexivity.
Qed.

(** The half-open range [{gt: 0, lte: 100}] on the number 100. *)
Lemma comparison_operator_witness :
  matchCondition (VObj [("gt", VNum 0); ("lte", VNum 100)]) (VNum 100) = Ok true
  /\ matchCondition (VObj [("gt", VNum 0); ("lte", VNum 100)]) (VStr "100") = Ok false.
Proof.
  destruct comparison_operator as (H1 & _ & H3 & _).
  split.
  - destruct (H3 [("gt", VNum 0); ("lte", VNum 100)] 100%float) as [E _].
    + reflexivity.
    + intros k Hk. simpl in Hk.
      destruct Hk as [<- | [<- | [<- | [<- | []]]]];
        [left; reflexivity | right; eexists; reflexivity
         | right; eexists; reflexivity | left; reflexivity].
    + exact E.
  - apply H1; [reflexivity | discriminate].
Defined.

Lemma strictEq_typeof (a b : value) : strictEq a b = true -> typeof a = typeof b.
Proof. destruct a, b; simpl; intros H; try discriminate; reflexivity. Qed.

Lemma sameValueZero_strictEq (a b : value) :
  sameValueZero a b = strictEq a b || (isNaN a && isNaN b).
Proof.
  destruct a, b; simpl; rewrite ?andb_false_r, ?orb_false_r; reflexivity.
Qed.

Lemma strictEq_null (a : value) : strictEq a VNull = true <-> a = VNull.
Proof. destruct a; simpl; split; intros H; try discriminate; reflexivity. Qed.

Lemma matchCondition_in (fs : obj) (xs : list value) (a : value) :
  isComparisonOperator (VObj fs) = false ->
  lookup "in" fs = Some (VArr xs) ->
  matchCondition (VObj fs) a = Ok (existsb (fun x => sameValueZero x a) xs).
Proof.
  intros Hop Hin. unfold matchCondition, isInOperator, checkInOperator, getOwn.
  rewrite Hop. simpl. rewrite Hin. reflexivity.
Qed.

(** C2: exact-match and [in] constraints compare without type coercion.  A
    number constraint never matches a string, whatever its text.  A [null]
    constraint matches exactly the value [null]; a missing key reads as
    [undefined], which is not [null].  An [in] constraint holds iff some
    element of its list is the same value as the actual one, each element
    compared on its own; two values that compare equal have the same type.
    ([Array.prototype.includes] compares as [===] does, except that it finds
    NaN in a list that holds NaN.) *)
Theorem strict_matching :
  (forall x s, matchCondition (VNum x) (VStr s) = Ok false)
  /\ (forall field x s rest,
      reserved field = false ->
      matchConditions (VObj [(field, VNum x)]) ((field, VStr s) :: rest) = Ok false)
  /\ (forall a, matchCondition VNull a = Ok true <-> a = VNull)
  /\ (forall field input,
      reserved field = false ->
      (matchConditions (VObj [(field, VNull)]) input = Ok true <->
       lookup field input = Some VNull))
  /\ (forall c a, isComparisonOperator c = false -> isInOperator c = false ->
      matchCondition c a = Ok (strictEq a c))
  /\ (forall fs xs a,
      isComparisonOperator (VObj fs) = false ->
      lookup "in" fs = Some (VArr xs) ->
      matchCondition (VObj fs) a = Ok (existsb (fun x => sameValueZero x a) xs))
  /\ (forall a b, strictEq a b = true -> typeof a = typeof b)
  /\ (forall a b, sameValueZero a b = true -> typeof a = typeof b)
  /\ (forall a b, sameValueZero a b = strictEq a b || (isNaN a && isNaN b))
  /\ matchConditions (VObj [("field", VNum 100)]) [("field", VStr "100")] = Ok false
  /\ matchConditions (VObj [("field", VNull)]) [] = Ok false
  /\ matchConditions (VObj [("field", VNull)]) [("field", VNull)] = Ok true
  /\ matchConditions
       (VObj [("status", VObj [("in", VArr [VStr "active"; VNum 1; VBool true])])])
       [("status", VBool true)] = Ok true
  /\ matchConditions
       (VObj [("status", VObj [("in", VArr [VStr "active"; VNum 1; VBool true])])])
       [("status", VStr "true")] = Ok false.
Proof.
  split; [reflexivity |].
  split.
  { intros field x s rest Hres. rewrite (matchConditions_single _ _ _ Hres).
    now rewrite getOwn_cons_same. }
  split.
  { intros a. change (matchCondition VNull a) with (@Ok bool (strictEq a VNull)).
    rewrite <- strictEq_null. split; [intros H; now injection H | intros ->; reflexivity]. }
  split.
  { intros field input Hres. rewrite (matchConditions_single _ _ _ Hres).
    change (matchCondition VNull (getOwn input field))
      with (@Ok bool (strictEq (getOwn input field) VNull)).
    unfold getOwn. destruct (lookup field input) as [v |].
    - split.
      + intros H. injection H as H. apply strictEq_null in H. now subst v.
      + intros H. injection H as ->. reflexivity.
    - split; discriminate. }
  split.
  { intros c a Hop Hin. unfold matchCondition. now rewrite Hop, Hin. }
  split; [exact matchCondition_in |].
  split; [exact strictEq_typeof |].
  split.
  { intros a b. rewrite sameValueZero_strictEq. intros H.
    apply orb_true_iff in H. destruct H as [H | H].
    - now apply strictEq_typeof.
    - apply andb_true_iff in H. destruct H as [Ha Hb].
      destruct a, b; simpl in *; try discriminate; reflexivity. }
  split; [exact sameValueZero_strictEq |].
  repeat split; reflexivity.
Qed.

(** *** Boolean groups *)

Section Quantifiers.
Context {A : Type} (f : A -> result bool).

Lemma some_false_iff (cs : list A) :
  some f cs = Ok false <-> Forall (fun c => f c = Ok false) cs.
Proof.
  induction cs as [| c cs IH]; simpl.
  - split; [constructor | reflexivity].
  - split.
    + intros H. destruct (f c) as [[|] | |] eqn:E; simpl in H; try discriminate.
      constructor; [exact E | now apply IH].
    + intros H. inversion H as [| ? ? Hc Hcs]; subst. rewrite Hc. simpl. now apply IH.
Qed.

Lemma some_true_first (pre post : list A) (c : A) :
  Forall (fun c => f c = Ok false) pre ->
  f c = Ok true ->
  some f (pre ++ c :: post) = Ok true.
Proof.
  induction 1 as [| d pre Hd _ IH]; simpl; intros Hc.
  - now rewrite Hc.
  - rewrite Hd. simpl. now apply IH.
Qed.

Lemma some_true_inv (cs : list A) :
  some f cs = Ok true ->
  exists pre c post,
    cs = pre ++ c :: post /\ Forall (fun c => f c = Ok false) pre /\ f c = Ok true.
Proof.
  induction cs as [| d cs IH]; simpl; [discriminate |].
  destruct (f d) as [[|] | |] eqn:E; simpl; try discriminate; intros H.
  - exists [], d, cs. repeat split; [constructor | exact E].
  - destruct (IH H) as (pre & c & post & -> & Hpre & Hc).
    exists (d :: pre), c, post. repeat split; [constructor; assumption | exact Hc].
Qed.
End Quantifiers.

Lemma matchConditions_true_iff (fs : obj) (input : obj) :
  matchConditions (VObj fs) input = Ok true <->
  fieldsMatch fs input = Ok true /\ allClause fs input = Ok true
  /\ anyClause fs input = Ok true.
Proof.
  rewrite matchConditions_obj.
  destruct (fieldsMatch fs input) as [[|] | |]; simpl;
    [| split; [discriminate | intros (H & _); discriminate H] ..].
  destruct (allClause fs input) as [[|] | |]; simpl;
    [| split; [discriminate | intros (_ & H & _); discriminate H] ..].
  destruct (anyClause fs input) as [[|] | |]; simpl;
    [| split; [discriminate | intros (_ & _ & H); discriminate H] ..].
  tauto.
Qed.

(** C5, as the code has it: the [any] clause of a tree rejects exactly when
    no nested tree of its sequence matches the input, and that is so for the
    empty sequence, because [[].some(...)] is false: a tree with an empty
    [any] sequence matches no input.  It accepts when some nested tree
    matches and the ones before it do not.  A key [any] or [all] that is
    absent, or whose value is not a sequence, adds no constraint.  The tree
    matches iff its fields, its [all] clause and its [any] clause all do. *)
Theorem any_clause (fs : obj) (input : obj) :
  (forall cs,
      lookup "any" fs = Some (VArr cs) ->
      (anyClause fs input = Ok false <->
       Forall (fun c => matchConditions c input = Ok false) cs)
      /\ (anyClause fs input = Ok true <->
          exists pre c post,
            cs = pre ++ c :: post /\
            Forall (fun c => matchConditions c input = Ok false) pre /\
            matchConditions c input = Ok true)
      /\ (cs = [] -> forall b, matchConditions (VObj fs) input = Ok b -> b = false))
  /\ ((lookup "any" fs = None \/
       exists v, lookup "any" fs = Some v /\ forall cs, v <> VArr cs) ->
      anyClause fs input = Ok true)
  /\ ((lookup "all" fs = None \/
       exists v, lookup "all" fs = Some v /\ forall cs, v <> VArr cs) ->
      allClause fs input = Ok true)
  /\ (matchConditions (VObj fs) input = Ok true <->
      fieldsMatch fs input = Ok true /\ allClause fs input = Ok true
      /\ anyClause fs input = Ok true).
Proof.
  split; [| split; [| split]].
  - intros cs Hany.
    assert (E : anyClause fs input = some (fun c => matchConditions c input) cs).
    { unfold anyClause. now rewrite Hany. }
    rewrite E. split; [apply some_false_iff |]. split.
    + split; [apply some_true_inv |].
      intros (pre & c & post & -> & Hpre & Hc). now apply some_true_first.
    + intros -> [|] Hb; [| reflexivity].
      apply matchConditions_true_iff in Hb. destruct Hb as (_ & _ & Hb).
      rewrite E in Hb. discriminate Hb.
  - unfold anyClause. intros [-> | (v & -> & Hv)]; [reflexivity |].
    destruct v; try reflexivity. now elim (Hv xs).
  - unfold allClause. intros [-> | (v & -> & Hv)]; [reflexivity |].
    destruct v; try reflexivity. now elim (Hv xs).
  - apply matchConditions_true_iff.
Qed.

(** The tree [{tier: "vip", any: []}] on the input [{tier: "vip"}]: the field
    holds, there is no [all], and the tree does not match. *)
Lemma empty_any_rejects :
  fieldsMatch [("tier", VStr "vip"); ("any", VArr [])] [("tier", VStr "vip")] = Ok true
  /\ allClause [("tier", VStr "vip"); ("any", VArr [])] [("tier", VStr "vip")] = Ok true
  /\ matchConditions (VObj [("tier", VStr "vip"); ("any", VArr [])])
       [("tier", VStr "vip")] = Ok false.
Proof. repeat split; reflexivity. Qed.

Lemma any_clause_witness :
  anyClause [("any", VArr [VObj [("tier", VStr "vip")]; VObj [("qty", VNum 5)]])]
    [("qty", VNum 5)] = Ok true
  /\ anyClause [("any", VStr "vip")] [] = Ok true.
Proof.
  split.
  - destruct (any_clause
                [("any", VArr [VObj [("tier", VStr "vip")]; VObj [("qty", VNum 5)]])]
                [("qty", VNum 5)]) as (H & _).
    destruct (H _ eq_refl) as (_ & H2 & _). apply H2.
    exists [VObj [("tier", VStr "vip")]], (VObj [("qty", VNum 5)]), [].
    repeat split. constructor; [reflexivity | constructor].
  - destruct (any_clause [("any", VStr "vip")] []) as (_ & H & _).
    apply H. right. exists (VStr "vip"). split; [reflexivity | discriminate].
Defined.

(** *** Totality *)

Lemma settles_bind (strict : bool) (m : result bool) (k : bool -> result bool) :
  settles strict m -> (forall b, settles strict (k b)) -> settles strict (b <- m ;; k b).
Proof. destruct m as [b | |]; simpl; auto. Qed.

Lemma boundHolds_settles (strict : bool) (rel : float -> float -> bool) (x : float)
  (v : value) :
  (if strict then exists n, toNumber v = Ok n else toPrimitiveThrows v = false) ->
  settles strict (boundHolds rel x v).
Proof.
  unfold boundHolds. destruct strict.
  - intros [n Hn]. destruct v; try exact I; rewrite Hn; exact I.
  - intros H. destruct v; try exact I; try reflexivity;
      unfold toNumber; rewrite H; [reflexivity | exact I].
Qed.

Lemma coercible_key (v : value) (k : string) :
  coercible v = true -> In k comparisonKeys ->
  exists n, toNumber (getOwn (entries v) k) = Ok n.
Proof.
  unfold coercible. rewrite forallb_forall. intros H Hk. specialize (H k Hk).
  destruct (toNumber (getOwn (entries v) k)) as [n | |]; [now exists n | discriminate ..].
Qed.

Lemma convertible_key (v : value) (k : string) :
  convertible v = true -> In k comparisonKeys ->
  toPrimitiveThrows (getOwn (entries v) k) = false.
Proof.
  unfold convertible. rewrite forallb_forall. intros H Hk.
  apply negb_true_iff. exact (H k Hk).
Qed.

Lemma matchCondition_settles (strict : bool) (v a : value) :
  fieldOk strict v -> settles strict (matchCondition v a).
Proof.
  intros Hv. unfold matchCondition.
  destruct (isComparisonOperator v); [| destruct (isInOperator v); exact I].
  assert (B : forall rel x k, In k comparisonKeys ->
                settles strict (boundHolds rel x (getOwn (entries v) k))).
  { intros rel x k Hk. apply boundHolds_settles. destruct strict.
    - now apply coercible_key.
    - now apply convertible_key. }
  unfold compareValue. destruct a; try exact I.
  repeat (apply settles_bind;
          [ apply B; simpl; tauto | intros [|]; simpl; try exact I ]).
Qed.

Lemma fieldsMatch_settles (strict : bool) (es : obj) (input : obj) :
  (forall k v, In (k, v) es -> reserved k = false -> fieldOk strict v) ->
  settles strict (fieldsMatch es input).
Proof.
  induction es as [| [k v] es IH]; simpl; intros H; [exact I |].
  destruct (reserved k) eqn:Hk.
  - apply IH. intros k' v' Hin. apply H. now right.
  - apply settles_bind.
    + apply matchCondition_settles. apply (H k v); [now left | exact Hk].
    + intros [|]; simpl; [| exact I]. apply IH. intros k' v' Hin. apply H. now right.
Qed.

Section QuantifiersSettle.
Context (strict : bool) (f : value -> result bool).

Lemma every_settles (cs : list value) :
  Forall (fun c => settles strict (f c)) cs -> settles strict (every f cs).
Proof.
  induction 1 as [| c cs Hc _ IH]; simpl; [exact I |].
  apply settles_bind; [exact Hc | intros [|]; [exact IH | exact I]].
Qed.

Lemma some_settles (cs : list value) :
  Forall (fun c => settles strict (f c)) cs -> settles strict (some f cs).
Proof.
  induction 1 as [| c cs Hc _ IH]; simpl; [exact I |].
  apply settles_bind; [exact Hc | intros [|]; [exact I | exact IH]].
Qed.
End QuantifiersSettle.

Lemma lookup_In (k : string) (o : obj) (v : value) :
  lookup k o = Some v -> In (k, v) o.
Proof.
  induction o as [| [k' v'] o IH]; simpl; [discriminate |].
  destruct (String.eqb k' k) eqn:E.
  - intros H. injection H as ->. apply String.eqb_eq in E. subst k'. now left.
  - intros H. right. now apply IH.
Qed.

Lemma indexedFrom_In (P : value -> Prop) (xs : list value) :
  Forall P xs -> forall i k v, In (k, v) (indexedFrom i xs) -> P v.
Proof.
  induction 1 as [| x xs Hx _ IH]; simpl; intros i k v Hin; [contradiction |].
  destruct Hin as [E | Hin]; [injection E as _ <-; exact Hx | exact (IH _ _ _ Hin)].
Qed.

(** A shaped tree settles, at every depth. *)
Lemma matchConditions_settles (strict : bool) (input : obj) (c : value) :
  Shaped (fieldOk strict) c -> settles strict (matchConditions c input).
Proof.
  enough (Q : (Shaped (fieldOk strict) c -> settles strict (matchConditions c input))
              /\ (forall cs, c = VArr cs ->
                  Forall (fun d => Shaped (fieldOk strict) d ->
                                   settles strict (matchConditions d input)) cs))
    by exact (proj1 Q).
  induction c as [| | b | x | s | xs IH | fs IH] using value_ind;
    try (split; [intros H; now inversion H | intros cs E; discriminate E]).
  - split.
    + intros H. inversion H as [ys Hxs |]; subst.
      cbn [matchConditions entries]. apply settles_bind.
      * apply fieldsMatch_settles. intros k v Hin _.
        exact (indexedFrom_In _ xs Hxs _ _ _ Hin).
      * intros [|]; exact I.
    + intros cs E. injection E as <-.
      apply (Forall_impl _ (fun d (Hd : _ /\ _) => proj1 Hd) IH).
  - split; [| intros cs E; discriminate E].
    intros H. inversion H as [| gs Hf Hall Hany]; subst.
    assert (Nested : forall k cs, lookup k fs = Some (VArr cs) ->
              Forall (Shaped (fieldOk strict)) cs ->
              Forall (fun d => settles strict (matchConditions d input)) cs).
    { intros k cs Hk Hcs. apply lookup_In in Hk.
      rewrite Forall_forall in IH. destruct (IH _ Hk) as [_ Hq].
      specialize (Hq cs eq_refl). rewrite Forall_forall in *.
      intros d Hd. apply (Hq d Hd). apply (Hcs d Hd). }
    rewrite matchConditions_obj. apply settles_bind.
    { apply fieldsMatch_settles. exact Hf. }
    intros [|]; simpl; [| exact I]. apply settles_bind.
    { unfold allClause. destruct (lookup "all" fs) as [[| | | | | cs |] |] eqn:E; try exact I.
      apply every_settles. exact (Nested _ cs E (Hall cs eq_refl)). }
    intros [|]; simpl; [| exact I]. apply settles_bind.
    { unfold anyClause. destruct (lookup "any" fs) as [[| | | | | cs |] |] eqn:E; try exact I.
      apply some_settles. exact (Nested _ cs E (Hany cs eq_refl)). }
    intros [|]; exact I.
Qed.

Lemma fieldsMatch_true_In (es : obj) (input : obj) (k : string) (v : value) :
  fieldsMatch es input = Ok true ->
  In (k, v) es -> reserved k = false ->
  matchCondition v (getOwn input k) = Ok true.
Proof.
  induction es as [| [k' v'] es IH]; simpl; intros H Hin Hk; [contradiction |].
  destruct Hin as [E | Hin].
  - injection E as -> ->. rewrite Hk in H.
    destruct (matchCondition v (getOwn input k)) as [[|] | |]; simpl in H;
      try discriminate; reflexivity.
  - destruct (reserved k'); [now apply IH |].
    destruct (matchCondition v' (getOwn input k')) as [[|] | |]; simpl in H;
      try discriminate. now apply IH.
Qed.

Lemma unrecognized_fails (v a : value) :
  unrecognized v = true -> matchCondition v a = Ok false.
Proof.
  unfold unrecognized, matchCondition. rewrite !andb_true_iff, !negb_true_iff.
  intros [[Hc ->] ->]. destruct v; try discriminate Hc; destruct a; reflexivity.
Qed.

Lemma matchConditions_scalar (c : value) (input : obj) :
  compound c = false -> typeof c <> TString -> matchConditions c input = TypeError.
Proof. destruct c; simpl; intros H Hs; try reflexivity; try discriminate H. now elim Hs. Qed.

Lemma toNumber_throws (b : value) :
  toPrimitiveThrows b = true -> toNumber b = TypeError /\ b <> VUndefined.
Proof.
  destruct b; try discriminate; intros H; unfold toNumber; rewrite H;
    (split; [reflexivity | discriminate]).
Qed.

Lemma boundHolds_throws (rel : float -> float -> bool) (x : float) (b : value) :
  toPrimitiveThrows b = true -> boundHolds rel x b = TypeError.
Proof.
  intros H. destruct (toNumber_throws b H) as [E Hb]. unfold boundHolds.
  destruct b; try (now elim Hb); now rewrite E.
Qed.

(** C9, as the code has it.  The matcher does not throw, on any input, on a
    condition tree that is an object or an array, whose [all] and [any]
    sequences hold only objects and arrays, at every depth, and none of whose
    comparison bounds is an object with a [toString] property (or an array
    that holds one); if moreover the comparison bounds are numbers, booleans
    or [null], it returns a boolean.  A field constraint of unrecognized
    shape is not satisfied by any value, and a tree with such a field matches
    no input.  The empty tree matches.  The matcher throws on a tree that is
    [null], [undefined], a number or a boolean, at the root as in an [all] or
    [any] sequence, and a string is never a tree that matches; it throws when
    it compares a number with a bound whose conversion throws. *)
Theorem matcher_total_on_shaped :
  (forall c input, TreeShaped c -> matchConditions c input <> TypeError)
  /\ (forall c input, WellTyped c -> exists b, matchConditions c input = Ok b)
  /\ (forall v a, unrecognized v = true -> matchCondition v a = Ok false)
  /\ (forall fs field v input b,
      In (field, v) fs -> reserved field = false -> unrecognized v = true ->
      matchConditions (VObj fs) input = Ok b -> b = false)
  /\ (forall input, matchConditions (VObj []) input = Ok true)
  /\ (forall c input,
      compound c = false -> typeof c <> TString ->
      matchConditions c input = TypeError
      /\ matchConditions (VObj [("all", VArr [c])]) input = TypeError
      /\ matchConditions (VObj [("any", VArr [c])]) input = TypeError)
  /\ (forall s input, matchConditions (VStr s) input <> Ok true)
  /\ (forall field k b x input,
      reserved field = false -> In k comparisonKeys ->
      toPrimitiveThrows b = true ->
      lookup field input = Some (VNum x) ->
      matchConditions (VObj [(field, VObj [(k, b)])]) input = TypeError).
Proof.
  split; [| split; [| split; [| split; [| split; [| split; [| split]]]]]].
  - intros c input H E.
    pose proof (matchConditions_settles false input c H) as S.
    rewrite E in S. exact S.
  - intros c input H.
    pose proof (matchConditions_settles true input c H) as S.
    destruct (matchConditions c input) as [b | |]; [now exists b | contradiction | discriminate].
  - exact unrecognized_fails.
  - intros fs field v input [|] Hin Hres Hv Hb; [| reflexivity].
    apply matchConditions_true_iff in Hb. destruct Hb as (Hf & _).
    pose proof (fieldsMatch_true_In fs input field v Hf Hin Hres) as Hm.
    rewrite (unrecognized_fails v _ Hv) in Hm. discriminate Hm.
  - reflexivity.
  - intros c input Hc Hs.
    pose proof (matchConditions_scalar c input Hc Hs) as E.
    split; [exact E |].
    split; rewrite matchConditions_obj; unfold allClause, anyClause;
      cbn [fieldsMatch reserved String.eqb Ascii.eqb Bool.eqb orb lookup bind negb every some];
      now rewrite E.
  - intros s input. cbn [matchConditions].
    destruct (fieldsMatch (entries (VStr s)) input) as [[|] | |]; discriminate.
  - intros field k b x input Hres Hk Hb Hx.
    rewrite (matchConditions_single field _ input Hres).
    unfold getOwn at 1. rewrite Hx.
    pose proof (boundHolds_throws ge x b Hb) as Ege.
    pose proof (boundHolds_throws le x b Hb) as Ele.
    pose proof (boundHolds_throws gt x b Hb) as Egt.
    pose proof (boundHolds_throws lt x b Hb) as Elt.
    simpl in Hk. destruct Hk as [<- | [<- | [<- | [<- | []]]]];
      unfold matchCondition, compareValue;
      cbn [isComparisonOperator keys entries map fst existsb includesKey comparisonKeys
           String.eqb Ascii.eqb Bool.eqb orb getOwn lookup boundHolds bind negb];
      rewrite ?Ege, ?Ele, ?Egt, ?Elt; reflexivity.
Qed.

(** A [null] entry in an [all] sequence: [Object.entries(null)] throws, and
    so does the evaluation of a rule with that condition. *)
Lemma null_entry_throws :
  matchConditions (VObj [("all", VArr [VNull])]) [("tier", VStr "vip")] = TypeError
  /\ evaluate [mkRule "r" (VObj [("all", VArr [VNull])]) (VObj [])]
       [("tier", VStr "vip")] = TypeError.
Proof. split; reflexivity. Qed.

Ltac field_cases H :=
  simpl in H;
  repeat match type of H with
         | _ \/ _ => destruct H as [H | H]
         | False => contradiction
         | (_, _) = (_, _) => injection H as <- <-
         end.

Lemma nestedTree_WellTyped : WellTyped nestedTree.
Proof.
  apply Shaped_obj.
  - intros k v Hin Hres. field_cases Hin; try reflexivity; discriminate Hres.
  - intros cs E. injection E as <-. repeat constructor.
    + intros k v Hin _. field_cases Hin. reflexivity.
    + intros cs E. discriminate E.
    + intros cs E. discriminate E.
  - intros cs E. injection E as <-. repeat constructor.
    + intros k v Hin _. field_cases Hin. reflexivity.
    + intros cs E. discriminate E.
    + intros cs E. discriminate E.
    + intros k v Hin. contradiction.
    + intros cs E. discriminate E.
    + intros cs E. discriminate E.
Qed.

Lemma matcher_total_on_shaped_witness :
  (exists b, matchConditions nestedTree [("tier", VStr "vip"); ("qty", VNum 12)] = Ok b)
  /\ matchCondition (VObj [("in", VStr "yes")]) (VStr "yes") = Ok false.
Proof.
  destruct matcher_total_on_shaped as (_ & H2 & H3 & _).
  split.
  - apply H2. exact nestedTree_WellTyped.
  - apply H3. reflexivity.
Defined.

(** *** Deep equality *)

Lemma allIndexedFrom_forallb (body : string -> value -> bool) (xs : list value) (i : nat) :
  allIndexedFrom body i xs = forallb (fun e => body (fst e) (snd e)) (indexedFrom i xs).
Proof.
  revert i. induction xs as [| x xs IH]; simpl; intros i; [reflexivity |].
  now rewrite IH.
Qed.

Lemma forallb_pointwise {A : Type} (f g : A -> bool) (l : list A) :
  (forall x, f x = g x) -> forallb f l = forallb g l.
Proof. intros H. induction l as [| x l IH]; simpl; [reflexivity | now rewrite H, IH]. Qed.

(** Two arrays or objects, in any combination, are compared by the number of
    their keys and then key by key. *)
Lemma deepEqual_compound (a b : value) :
  compound a = true -> compound b = true ->
  deepEqual a b =
  Nat.eqb (List.length (keys a)) (List.length (keys b)) && forallb (sameProperty b) (entries a).
Proof.
  intros Ha Hb.
  destruct a as [| | | | | xs | fs]; try discriminate Ha;
    destruct b as [| | | | | ys | gs]; try discriminate Hb;
    cbn [deepEqual strictEq typeof jstype_eqb negb isNull orb];
    match goal with
    | |- (if negb ?c then false else ?X) = _ => destruct c; cbn [negb andb]; [| reflexivity]
    end;
    rewrite ?allIndexedFrom_forallb;
    apply forallb_pointwise; intros [k v]; reflexivity.
Qed.

Lemma to_uint_nonnil (n : nat) : Nat.to_uint n <> Decimal.Nil.
Proof.
  intros E. pose proof (DecimalNat.Unsigned.of_to n) as H. rewrite E in H.
  simpl in H. subst n. discriminate E.
Qed.

Lemma indexKey_inj (n m : nat) : indexKey n = indexKey m -> n = m.
Proof.
  unfold indexKey. intros E.
  apply (f_equal NilZero.uint_of_string) in E.
  rewrite !NilZero.usu in E by apply to_uint_nonnil.
  injection E as E. now apply DecimalNat.Unsigned.to_uint_inj.
Qed.

Lemma indexedFrom_keys_from (xs : list value) (i : nat) (k : string) :
  In k (map fst (indexedFrom i xs)) -> exists j, i <= j /\ k = indexKey j.
Proof.
  revert i. induction xs as [| x xs IH]; simpl; intros i H; [contradiction |].
  destruct H as [<- | H].
  - exists i. split; [lia | reflexivity].
  - destruct (IH _ H) as (j & Hj & ->). exists j. split; [lia | reflexivity].
Qed.

Lemma indexedFrom_NoDup (xs : list value) (i : nat) : NoDup (map fst (indexedFrom i xs)).
Proof.
  revert i. induction xs as [| x xs IH]; simpl; intros i; constructor.
  - intros H. apply indexedFrom_keys_from in H. destruct H as (j & Hj & E).
    apply indexKey_inj in E. lia.
  - apply IH.
Qed.

Lemma lookup_NoDup (o : obj) (k : string) (v : value) :
  NoDup (map fst o) -> In (k, v) o -> lookup k o = Some v.
Proof.
  induction o as [| [k' v'] o IH]; simpl; intros Hnd Hin; [contradiction |].
  inversion Hnd as [| ? ? Hk Hrest]; subst.
  destruct Hin as [E | Hin].
  - injection E as -> ->. now rewrite String.eqb_refl.
  - destruct (String.eqb k' k) eqn:E.
    + apply String.eqb_eq in E. subst k'. elim Hk.
      change k with (fst (k, v)). now apply in_map.
    + now apply IH.
Qed.

Lemma includesKey_In (ks : list string) (k : string) : In k ks -> includesKey ks k = true.
Proof.
  intros H. unfold includesKey. apply existsb_exists. exists k.
  split; [exact H | apply String.eqb_refl].
Qed.

(** Values with the same entries under distinct keys are deeply equal, as
    soon as each entry is deeply equal to itself. *)
Lemma deepEqual_same_entries (a b : value) :
  compound a = true -> compound b = true ->
  entries a = entries b ->
  NoDup (keys a) ->
  Forall (fun e => deepEqual (snd e) (snd e) = true) (entries a) ->
  deepEqual a b = true.
Proof.
  intros Ha Hb E Hnd Hrefl. rewrite (deepEqual_compound a b Ha Hb).
  unfold keys in *. rewrite <- E, Nat.eqb_refl. simpl.
  apply forallb_forall. intros [k v] Hin. unfold sameProperty, keys. rewrite <- E. simpl.
  rewrite includesKey_In by (change k with (fst (k, v)); now apply in_map).
  unfold getOwn. rewrite (lookup_NoDup _ k v Hnd Hin). simpl.
  rewrite Forall_forall in Hrefl. exact (Hrefl _ Hin).
Qed.

Lemma deepEqual_array_object (xs : list value) :
  Forall (fun v => deepEqual v v = true) xs ->
  deepEqual (VArr xs) (VObj (indexedFrom 0 xs)) = true.
Proof.
  intros H. apply deepEqual_same_entries; try reflexivity.
  - apply indexedFrom_NoDup.
  - apply Forall_forall. intros [k v] Hin. simpl.
    exact (indexedFrom_In _ xs H _ _ _ Hin).
Qed.

(** C10: [deepEqual] does not tell an array from an object.  Any two values
    that are arrays or objects are compared by the number of their keys and,
    for every key of the first, by membership among the keys of the second
    and deep equality of the two values under it; an array has its indices as
    keys.  So an array equals the object that has its elements under its
    indices, and a test that expects [[v0, v1]] under a key passes against a
    rule whose output holds [{"0": v0, "1": v1}] under that key. *)
Theorem deepEqual_array_as_object :
  (forall a b,
      compound a = true -> compound b = true ->
      deepEqual a b =
      Nat.eqb (List.length (keys a)) (List.length (keys b))
      && forallb (sameProperty b) (entries a))
  /\ (forall xs,
      Forall (fun v => deepEqual v v = true) xs ->
      deepEqual (VArr xs) (VObj (indexedFrom 0 xs)) = true)
  /\ (forall v0 v1,
      deepEqual v0 v0 = true -> deepEqual v1 v1 = true ->
      deepEqual (VArr [v0; v1]) (VObj [("0", v0); ("1", v1)]) = true)
  /\ (forall nm file rid key v0 v1,
      String.eqb key "matched_rule" = false ->
      deepEqual v0 v0 = true -> deepEqual v1 v1 = true ->
      exists res,
        runTest (mkTest nm [] [(key, VArr [v0; v1])])
          [mkRule rid (VObj []) (VObj [(key, VObj [("0", v0); ("1", v1)])])] file = Ok res
        /\ passed res = true /\ reason res = None).
Proof.
  split; [exact deepEqual_compound |]. split; [exact deepEqual_array_object |].
  assert (Two : forall v0 v1, deepEqual v0 v0 = true -> deepEqual v1 v1 = true ->
                  deepEqual (VArr [v0; v1]) (VObj [("0", v0); ("1", v1)]) = true).
  { intros v0 v1 H0 H1. apply (deepEqual_array_object [v0; v1]). now repeat constructor. }
  split; [exact Two |].
  intros nm file rid key v0 v1 Hkey H0 H1. eexists. split; [reflexivity |].
  cbn [passed reason input expect getOwn lookup actual output matched_rule
       assignedOutput filter fst snd fires spread entries then_].
  rewrite Hkey, (getOwn_cons_other _ _ _ _ Hkey). cbn [negb andb].
  destruct (String.eqb key "__proto__"); cbn [negb forallb fst snd].
  - split; reflexivity.
  - rewrite getProperty_cons_same, (Two v0 v1 H0 H1). split; reflexivity.
Qed.

(** A test that expects [tags: ["a", "b"]] passes against the rule output
    [tags: {"0": "a", "1": "b"}]. *)
Lemma deepEqual_array_as_object_witness :
  exists res,
    runTest (mkTest "tags" [] [("tags", VArr [VStr "a"; VStr "b"])])
      [mkRule "r" (VObj []) (VObj [("tags", VObj [("0", VStr "a"); ("1", VStr "b")])])]
      "tests.yaml" = Ok res
    /\ passed res = true /\ reason res = None.
Proof.
  destruct deepEqual_array_as_object as (_ & _ & _ & H).
  apply (H "tags" "tests.yaml" "r" "tags" (VStr "a") (VStr "b")); reflexivity.
Defined.

(** *** The test runner *)

Lemma actualOf_runTest (test : TestCase) (rules : list Rule) (file : string) :
  actualOf (runTest test rules file) =
  (if truthy (getOwn (input test) "rule_type")
   then evaluateByType rules (getOwn (input test) "rule_type") (input test)
   else evaluate rules (input test)).
Proof.
  unfold actualOf, runTest.
  destruct (if truthy (getOwn (input test) "rule_type")
            then evaluateByType rules (getOwn (input test) "rule_type") (input test)
            else evaluate rules (input test)) as [a | |]; reflexivity.
Qed.

Lemma truthy_false_iff (v : value) :
  truthy v = false <->
  v = VUndefined \/ v = VNull \/ v = VBool false \/ v = VStr ""
  \/ exists x, v = VNum x /\ (PrimFloat.eqb x 0 = true \/ PrimFloat.is_nan x = true).
Proof.
  split.
  - destruct v as [| | [|] | x | s | xs | fs]; simpl; intros H; try discriminate; auto.
    + right; right; right; right. exists x. split; [reflexivity |].
      apply negb_false_iff in H. now apply orb_true_iff in H.
    + right; right; right; left. apply negb_false_iff in H.
      apply String.eqb_eq in H. now subst s.
  - intros [-> | [-> | [-> | [-> | (x & -> & H)]]]]; try reflexivity.
    simpl. apply negb_false_iff. now apply orb_true_iff.
Qed.

(** C8, as the code has it: [runTest] evaluates through [evaluateByType],
    with the value the input holds under [rule_type], exactly when that value
    is truthy, and through [evaluate] otherwise.  A non-empty string under
    [rule_type] scopes the evaluation to it; an input without the key is
    evaluated against all the rules, and so is one whose [rule_type] is
    [null], [false], a zero, NaN or the empty string. *)
Theorem runTest_dispatch (test : TestCase) (rules : list Rule) (file : string) :
  actualOf (runTest test rules file) =
  (if truthy (getOwn (input test) "rule_type")
   then evaluateByType rules (getOwn (input test) "rule_type") (input test)
   else evaluate rules (input test))
  /\ (forall d,
      lookup "rule_type" (input test) = Some (VStr d) -> d <> "" ->
      actualOf (runTest test rules file) = evaluateByType rules (VStr d) (input test))
  /\ (lookup "rule_type" (input test) = None ->
      actualOf (runTest test rules file) = evaluate rules (input test))
  /\ (forall v,
      lookup "rule_type" (input test) = Some v -> truthy v = false ->
      actualOf (runTest test rules file) = evaluate rules (input test))
  /\ (forall v,
      truthy v = false <->
      v = VUndefined \/ v = VNull \/ v = VBool false \/ v = VStr ""
      \/ exists x, v = VNum x /\ (PrimFloat.eqb x 0 = true \/ PrimFloat.is_nan x = true)).
Proof.
  rewrite actualOf_runTest. unfold getOwn.
  split; [reflexivity |]. split; [| split; [| split]].
  - intros d -> Hd. simpl. apply String.eqb_neq in Hd. now rewrite Hd.
  - intros ->. reflexivity.
  - intros v -> Hv. now rewrite Hv.
  - exact truthy_false_iff.
Qed.

(** An input with the empty string under [rule_type] is evaluated against
    all the rules and gets the catch-all, where the evaluation scoped to the
    empty string matches nothing. *)
Lemma empty_discriminator_unscoped :
  lookup "rule_type" [("rule_type", VStr "")] = Some (VStr "")
  /\ actualOf (runTest (mkTest "t" [("rule_type", VStr "")] []) [ruleDefault] "tests.yaml")
     = Ok {| matched_rule := Some "r2"; output := [("pct", VNum 0)] |}
  /\ evaluate [ruleDefault] [("rule_type", VStr "")]
     = Ok {| matched_rule := Some "r2"; output := [("pct", VNum 0)] |}
  /\ evaluateByType [ruleDefault] (VStr "") [("rule_type", VStr "")]
     = Ok {| matched_rule := None; output := [] |}.
Proof. repeat split; reflexivity. Qed.

Lemma runTest_dispatch_witness :
  actualOf (runTest (mkTest "t" [("rule_type", VStr "shipping")] [])
              [ruleDefault; rulePricing; ruleShipping] "tests.yaml")
  = evaluateByType [ruleDefault; rulePricing; ruleShipping] (VStr "shipping")
      [("rule_type", VStr "shipping")].
Proof.
  destruct (runTest_dispatch (mkTest "t" [("rule_type", VStr "shipping")] [])
              [ruleDefault; rulePricing; ruleShipping] "tests.yaml") as (_ & H & _).
  apply (H "shipping"); [reflexivity | discriminate].
Defined.

Lemma firstMismatch_spec (es : obj) (out : obj) :
  forallb (fieldAgrees out) es = false ->
  exists pre key ev post,
    es = pre ++ (key, ev) :: post
    /\ Forall (fun p => fieldAgrees out p = true) pre
    /\ deepEqual ev (getProperty out key) = false
    /\ firstMismatch es out = OutputMismatch key ev (getProperty out key).
Proof.
  induction es as [| [k v] es IH]; simpl; [discriminate |].
  unfold fieldAgrees at 1. simpl.
  destruct (deepEqual v (getProperty out k)) eqn:E; simpl.
  - intros H. destruct (IH H) as (pre & key & ev & post & -> & Hpre & Hev & Hfm).
    exists ((k, v) :: pre), key, ev, post. repeat split; auto.
  - intros _. exists [], k, v, es. repeat split; auto.
Qed.

(** The first rule of id [v] is at position [i]. *)
Lemma positionOfId_spec (rules : list Rule) (v : value) (i : nat) :
  positionOfId rules v = Some i <->
  (exists r, nth_error rules i = Some r /\ strictEq (VStr (id r)) v = true)
  /\ (forall j r, j < i -> nth_error rules j = Some r -> strictEq (VStr (id r)) v = false).
Proof.
  revert i. induction rules as [| q rules IH]; intros i; cbn [positionOfId].
  - split; [discriminate |]. intros [(r & Hr & _) _]. now destruct i.
  - destruct (strictEq (VStr (id q)) v) eqn:Hq.
    + split.
      * intros E. injection E as <-. split; [now exists q |]. intros j r Hj. lia.
      * intros [_ Hbefore]. destruct i as [| i]; [reflexivity |].
        specialize (Hbefore 0 q (Nat.lt_0_succ i) eq_refl). congruence.
    + destruct i as [| i].
      * split.
        -- destruct (positionOfId rules v); discriminate.
        -- intros [(r & Hr & Hid) _]. simpl in Hr. injection Hr as <-. congruence.
      * specialize (IH i). split.
        -- intros E. destruct (positionOfId rules v) as [n |]; [| discriminate].
           injection E as ->. destruct (proj1 IH eq_refl) as [Hex Hbefore].
           split; [exact Hex |]. intros [| j] r Hj Hr.
           ++ simpl in Hr. injection Hr as <-. exact Hq.
           ++ apply (Hbefore j r); [lia | exact Hr].
        -- intros [Hex Hbefore].
           rewrite (proj2 IH); [reflexivity |]. split; [exact Hex |].
           intros j r Hj Hr. apply (Hbefore (S j) r); [lia | exact Hr].
Qed.

Lemma positionOfId_firstAt (rules : list Rule) (s : string) (i : nat) :
  positionOfId rules (VStr s) = Some i <-> firstAt rules s i.
Proof.
  rewrite positionOfId_spec. unfold firstAt. cbn [strictEq].
  split; intros [(r & Hr & Hid) Hb];
    (split; [exists r; split; [exact Hr |] | intros j q Hj Hq]).
  - now apply String.eqb_eq.
  - apply String.eqb_neq. exact (Hb j q Hj Hq).
  - now apply String.eqb_eq.
  - apply String.eqb_neq. exact (Hb j q Hj Hq).
Qed.

Lemma positionOfId_null (rules : list Rule) : positionOfId rules VNull = None.
Proof. induction rules as [| q rules IH]; cbn; [| rewrite IH]; reflexivity. Qed.

Lemma uniqueIds_firstAt (rules : list Rule) (i : nat) (r : Rule) :
  uniqueIds rules -> nth_error rules i = Some r -> firstAt rules (id r) i.
Proof.
  intros Hu Hi. split; [now exists r |].
  intros j q Hj Hq E.
  assert (Hji : j = i); [| lia].
  apply (proj1 (NoDup_nth_error (map id rules)) Hu).
  - rewrite length_map. apply nth_error_Some. congruence.
  - rewrite !nth_error_map, Hi, Hq. simpl. now rewrite E.
Qed.

Lemma filterR_In {A : Type} (f : A -> result bool) (xs kept : list A) :
  filterR f xs = Ok kept -> forall x, In x kept -> In x xs.
Proof.
  revert kept. induction xs as [| y xs IH]; simpl; intros kept H x Hx.
  - injection H as <-. exact Hx.
  - destruct (f y) as [b | |]; try discriminate H. cbn [bind] in H.
    destruct (filterR f xs) as [kept' | |]; try discriminate H. cbn [bind] in H.
    injection H as <-. destruct b.
    + destruct Hx as [-> | Hx]; [now left | right; now apply (IH kept')].
    + right. now apply (IH kept').
Qed.

Lemma filter_decompose {A : Type} (f : A -> bool) (l pre' post' : list A) (x : A) :
  filter f l = pre' ++ x :: post' ->
  exists pre post, l = pre ++ x :: post /\ filter f pre = pre' /\ f x = true.
Proof.
  revert pre'. induction l as [| y l IH]; simpl; intros pre' H.
  - destruct pre'; discriminate H.
  - destruct (f y) eqn:Hy.
    + destruct pre' as [| p pre']; simpl in H.
      * injection H as -> _. exists [], l. repeat split. exact Hy.
      * injection H as -> H. destruct (IH _ H) as (pre & post & -> & Hp & Hx).
        exists (p :: pre), post. simpl. rewrite Hy, Hp. repeat split. exact Hx.
    + destruct (IH _ H) as (pre & post & -> & Hp & Hx).
      exists (y :: pre), post. simpl. rewrite Hy. repeat split; assumption.
Qed.

(** What [runTest] returns, given the evaluation result. *)
Lemma runTest_Ok (test : TestCase) (rules : list Rule) (file : string) (res : TestResult) :
  runTest test rules file = Ok res ->
  actualOf (runTest test rules file) = Ok (actual res)
  /\ passed res =
     (strictEq (getOwn (expect test) "matched_rule") VUndefined
      || strictEq (getOwn (expect test) "matched_rule") (matchedRuleValue (actual res)))
     && forallb (fieldAgrees (output (actual res))) (assignedOutput (expect test))
  /\ reason res = (if passed res then None
                   else Some (generateReason (expect test) (actual res) rules)).
Proof.
  intros H. unfold actualOf. rewrite H. split; [reflexivity |].
  unfold runTest in H.
  destruct (if truthy (getOwn (input test) "rule_type")
            then evaluateByType rules (getOwn (input test) "rule_type") (input test)
            else evaluate rules (input test)) as [act | |]; try discriminate H.
  cbn [bind] in H. injection H as <-. split; reflexivity.
Qed.

(** The rule that a test run reports as matched stands in the rule list and
    matches the input of the test. *)
Lemma runTest_fired (test : TestCase) (rules : list Rule) (file : string)
  (res : TestResult) (a : string) :
  runTest test rules file = Ok res -> matched_rule (actual res) = Some a ->
  exists i r, nth_error rules i = Some r /\ id r = a
              /\ matchConditions (when r) (input test) = Ok true.
Proof.
  intros H Ha. destruct (runTest_Ok _ _ _ _ H) as (Hact & _).
  rewrite actualOf_runTest in Hact.
  assert (G : forall l, (forall r, In r l -> In r rules) ->
                evaluate l (input test) = Ok (actual res) ->
                exists r, In r rules /\ id r = a
                          /\ matchConditions (when r) (input test) = Ok true).
  { intros l Hl He.
    destruct (evaluate_inv _ _ _ He) as [(pre & r & post & E & _ & Hr & Hres) | [_ Hres]];
      rewrite Hres in Ha; [| discriminate Ha].
    exists r. injection Ha as <-. repeat split; [| exact Hr].
    apply Hl. rewrite E. apply in_elt. }
  assert (F : exists r, In r rules /\ id r = a
                        /\ matchConditions (when r) (input test) = Ok true).
  { destruct (truthy (getOwn (input test) "rule_type")).
    - unfold evaluateByType in Hact.
      destruct (filterR _ rules) as [kept | |] eqn:Ek; try discriminate Hact.
      cbn [bind] in Hact. exact (G kept (filterR_In _ _ _ Ek) Hact).
    - exact (G rules (fun r Hr => Hr) Hact). }
  destruct F as (r & Hin & Hid & Hm). destruct (In_nth_error _ _ Hin) as [i Hi].
  now exists i, r.
Qed.

Lemma generateReason_wrong (expected : obj) (act : EvaluationResult) (rules : list Rule) :
  wrongRule (getOwn expected "matched_rule") act = true ->
  generateReason expected act rules =
  match matched_rule act with
  | None => NoRuleMatched
  | Some a =>
      match positionOfId rules (getOwn expected "matched_rule"),
            positionOfId rules (VStr a) with
      | Some ie, Some ia =>
          if Nat.ltb ia ie then MatchedBefore a (getOwn expected "matched_rule")
          else ExpectedButMatched (getOwn expected "matched_rule") a
      | _, _ => ExpectedButMatched (getOwn expected "matched_rule") a
      end
  end.
Proof. unfold generateReason, wrongRule. now intros ->. Qed.

Lemma generateReason_output (expected : obj) (act : EvaluationResult) (rules : list Rule) :
  wrongRule (getOwn expected "matched_rule") act = false ->
  generateReason expected act rules
  = firstMismatch (withoutMatchedRule expected) (output act).
Proof. unfold generateReason, wrongRule. now intros ->. Qed.

Lemma getOwn_lookup (o : obj) (k : string) (v : value) :
  lookup k o = Some v -> getOwn o k = v.
Proof. unfold getOwn. now intros ->. Qed.

Lemma wrongRule_as_expected (expect : obj) (act : EvaluationResult) :
  ruleAsExpected expect act -> wrongRule (getOwn expect "matched_rule") act = false.
Proof.
  unfold wrongRule, matchedRuleValue, getOwn.
  intros [-> | [[-> ->] | (x & -> & ->)]]; cbn; try reflexivity.
  now rewrite String.eqb_refl.
Qed.

(** A field that [runTest] finds to differ is found by [generateReason],
    which reports the first field of [expect], other than [matched_rule],
    that differs. *)
Lemma output_mismatch_found (expect out : obj) :
  forallb (fieldAgrees out) (assignedOutput expect) = false ->
  exists pre key ev post,
    expect = pre ++ (key, ev) :: post
    /\ key <> "matched_rule"
    /\ (forall k v, In (k, v) pre -> k <> "matched_rule" ->
                    deepEqual v (getProperty out k) = true)
    /\ deepEqual ev (getProperty out key) = false
    /\ firstMismatch (withoutMatchedRule expect) out
       = OutputMismatch key ev (getProperty out key).
Proof.
  intros H.
  assert (H' : forallb (fieldAgrees out) (withoutMatchedRule expect) = false).
  { apply not_true_is_false. intros Hall. rewrite forallb_forall in Hall.
    assert (C : forallb (fieldAgrees out) (assignedOutput expect) = true).
    { apply forallb_forall. intros p Hp. apply Hall.
      unfold assignedOutput in Hp. unfold withoutMatchedRule.
      apply filter_In in Hp. apply filter_In. destruct Hp as [Hin Hf].
      apply andb_true_iff in Hf. tauto. }
    congruence. }
  destruct (firstMismatch_spec _ _ H') as (pre' & key & ev & post' & E & Hpre & Hev & Hfm).
  unfold withoutMatchedRule in E.
  destruct (filter_decompose _ _ _ _ _ E) as (pre & post & -> & Hp & Hk).
  exists pre, key, ev, post. split; [reflexivity |]. split.
  - cbn in Hk. now apply negb_true_iff, String.eqb_neq in Hk.
  - split; [| split; [exact Hev | exact Hfm]].
    intros k v Hin Hk'. rewrite Forall_forall in Hpre.
    apply (Hpre (k, v)). rewrite <- Hp. apply filter_In. split; [exact Hin |].
    cbn. now apply negb_true_iff, String.eqb_neq.
Qed.

(** C4: a test result carries a reason exactly when the test failed.  For a
    test whose expectations are as [TestCase] declares them, the reason of a
    failed test is the first that applies of: (a) a rule was expected by name
    and none matched; (b) a rule was expected by name, a rule of another id
    matched, and the first rule of the matched id stands in the rule list
    before the first rule of the expected id: the ordering diagnosis, with
    both ids; (c) a rule was expected by name and a rule of another id
    matched, in any other position, or the expected id is the id of no rule,
    or no rule was expected ([null]) and one matched: the generic diagnosis;
    (d) what the test says of the matched rule holds: the first field of
    [expect], other than [matched_rule], whose value differs from the actual
    one, with both values.  One of the four applies to every failed test, so
    the fallback (e) is never the reason of a test.  The rule that matched
    stands in the rule list, and when the ids of the rules are pairwise
    distinct the position a rule stands at is the position of the first rule
    of its id: (b) and (c) then compare the position of the rule that matched
    with the position of the expected rule.  For the rules
    [A (when tier = vip); B (when {})], the input [{tier: "enterprise"}] and
    the expected rule [A], rule [B] matches at position 1, after position 0
    of [A], and the reason is (c). *)
Theorem runTest_reason :
  (forall test rules file res,
      runTest test rules file = Ok res ->
      declared (expect test) ->
      let out := output (actual res) in
      (passed res = true <-> reason res = None)
      /\ (passed res = false ->
          (forall x,
              lookup "matched_rule" (expect test) = Some (VStr x) ->
              matched_rule (actual res) = None ->
              reason res = Some NoRuleMatched)
          /\ (forall x a ix ia,
              lookup "matched_rule" (expect test) = Some (VStr x) ->
              matched_rule (actual res) = Some a -> a <> x ->
              firstAt rules x ix -> firstAt rules a ia -> ia < ix ->
              reason res = Some (MatchedBefore a (VStr x)))
          /\ (forall x a,
              lookup "matched_rule" (expect test) = Some (VStr x) ->
              matched_rule (actual res) = Some a -> a <> x ->
              (forall ix ia, firstAt rules x ix -> firstAt rules a ia -> ix <= ia) ->
              reason res = Some (ExpectedButMatched (VStr x) a))
          /\ (forall a,
              lookup "matched_rule" (expect test) = Some VNull ->
              matched_rule (actual res) = Some a ->
              reason res = Some (ExpectedButMatched VNull a))
          /\ (ruleAsExpected (expect test) (actual res) ->
              exists pre key ev post,
                expect test = pre ++ (key, ev) :: post
                /\ key <> "matched_rule"
                /\ (forall k v, In (k, v) pre -> k <> "matched_rule" ->
                                deepEqual v (getProperty out k) = true)
                /\ deepEqual ev (getProperty out key) = false
                /\ reason res = Some (OutputMismatch key ev (getProperty out key)))
          /\ ((exists x, lookup "matched_rule" (expect test) = Some (VStr x)
                         /\ matched_rule (actual res) = None)
              \/ (exists x a, lookup "matched_rule" (expect test) = Some (VStr x)
                              /\ matched_rule (actual res) = Some a /\ a <> x)
              \/ (exists a, lookup "matched_rule" (expect test) = Some VNull
                            /\ matched_rule (actual res) = Some a)
              \/ ruleAsExpected (expect test) (actual res))
          /\ reason res <> Some UnknownMismatch))
  /\ (forall test rules file res a,
      runTest test rules file = Ok res ->
      matched_rule (actual res) = Some a ->
      exists i r, nth_error rules i = Some r /\ id r = a
                  /\ matchConditions (when r) (input test) = Ok true
                  /\ (uniqueIds rules -> firstAt rules a i))
  /\ (forall rules i r,
      uniqueIds rules -> nth_error rules i = Some r -> firstAt rules (id r) i)
  /\ (exists res,
      runTest (mkTest "enterprise is not vip" [("tier", VStr "enterprise")]
                 [("matched_rule", VStr "A")]) [ruleA; ruleB] "tests.yaml" = Ok res
      /\ actual res = {| matched_rule := Some "B"; output := [] |}
      /\ firstAt [ruleA; ruleB] "A" 0
      /\ firstAt [ruleA; ruleB] "B" 1
      /\ passed res = false
      /\ reason res = Some (ExpectedButMatched (VStr "A") "B")).
Proof.
  split; [| split; [| split]].
  - intros test rules file res H [Hmr _] out.
    destruct (runTest_Ok _ _ _ _ H) as (_ & Hp & Hr).
    split.
    { rewrite Hr. destruct (passed res); split; intros E; try reflexivity; discriminate E. }
    intros Hf. rewrite Hf in Hr, Hp. rewrite Hr. subst out.
    set (act := actual res) in *. set (exp := expect test) in *.
    assert (Named : forall x a,
              lookup "matched_rule" exp = Some (VStr x) ->
              matched_rule act = Some a -> a <> x ->
              generateReason exp act rules =
              match positionOfId rules (VStr x), positionOfId rules (VStr a) with
              | Some ie, Some ia =>
                  if Nat.ltb ia ie then MatchedBefore a (VStr x)
                  else ExpectedButMatched (VStr x) a
              | _, _ => ExpectedButMatched (VStr x) a
              end).
    { intros x a Hx Ha Hne. apply getOwn_lookup in Hx.
      rewrite generateReason_wrong, Hx, Ha; [reflexivity |].
      rewrite Hx. unfold wrongRule, matchedRuleValue. rewrite Ha. cbn.
      assert (Hxa : String.eqb x a = false) by (apply String.eqb_neq; congruence).
      now rewrite Hxa. }
    assert (A : forall x,
              lookup "matched_rule" exp = Some (VStr x) -> matched_rule act = None ->
              generateReason exp act rules = NoRuleMatched).
    { intros x Hx Ha. apply getOwn_lookup in Hx.
      rewrite generateReason_wrong, Ha; [reflexivity |].
      rewrite Hx. unfold wrongRule, matchedRuleValue. now rewrite Ha. }
    assert (N : forall a,
              lookup "matched_rule" exp = Some VNull -> matched_rule act = Some a ->
              generateReason exp act rules = ExpectedButMatched VNull a).
    { intros a Hx Ha. apply getOwn_lookup in Hx.
      rewrite generateReason_wrong, Hx, Ha, positionOfId_null; [reflexivity |].
      rewrite Hx. unfold wrongRule, matchedRuleValue. now rewrite Ha. }
    assert (D : ruleAsExpected exp act ->
              exists pre key ev post,
                exp = pre ++ (key, ev) :: post
                /\ key <> "matched_rule"
                /\ (forall k v, In (k, v) pre -> k <> "matched_rule" ->
                                deepEqual v (getProperty (output act) k) = true)
                /\ deepEqual ev (getProperty (output act) key) = false
                /\ generateReason exp act rules
                   = OutputMismatch key ev (getProperty (output act) key)).
    { intros Has. pose proof (wrongRule_as_expected _ _ Has) as Hw.
      rewrite (generateReason_output _ _ _ Hw).
      apply output_mismatch_found.
      unfold wrongRule in Hw. rewrite <- negb_orb in Hw. apply negb_false_iff in Hw.
      rewrite Hw in Hp. now symmetry in Hp. }
    assert (Cases :
              (exists x, lookup "matched_rule" exp = Some (VStr x) /\ matched_rule act = None)
              \/ (exists x a, lookup "matched_rule" exp = Some (VStr x)
                              /\ matched_rule act = Some a /\ a <> x)
              \/ (exists a, lookup "matched_rule" exp = Some VNull
                            /\ matched_rule act = Some a)
              \/ ruleAsExpected exp act).
    { unfold ruleAsExpected.
      destruct Hmr as [Hn | [Hn | [x Hx]]]; destruct (matched_rule act) as [a |] eqn:Ha.
      - right; right; right. now left.
      - right; right; right. now left.
      - right; right; left. now exists a.
      - right; right; right. right. now left.
      - destruct (String.eqb a x) eqn:Eax.
        + apply String.eqb_eq in Eax. subst a.
          right; right; right. right; right. now exists x.
        + apply String.eqb_neq in Eax. right; left. now exists x, a.
      - left. now exists x. }
    split; [intros x Hx Ha; now rewrite (A x Hx Ha) |].
    split.
    { intros x a ix ia Hx Ha Hne Hix Hia Hlt. rewrite (Named x a Hx Ha Hne).
      rewrite (proj2 (positionOfId_firstAt rules x ix) Hix),
              (proj2 (positionOfId_firstAt rules a ia) Hia).
      apply Nat.ltb_lt in Hlt. now rewrite Hlt. }
    split.
    { intros x a Hx Ha Hne Hpos. rewrite (Named x a Hx Ha Hne).
      destruct (positionOfId rules (VStr x)) as [ie |] eqn:Ee; [| reflexivity].
      destruct (positionOfId rules (VStr a)) as [ia |] eqn:Ea; [| reflexivity].
      apply positionOfId_firstAt in Ee. apply positionOfId_firstAt in Ea.
      specialize (Hpos ie ia Ee Ea). apply Nat.ltb_ge in Hpos. now rewrite Hpos. }
    split; [intros a Hx Ha; now rewrite (N a Hx Ha) |].
    split.
    { intros Has. destruct (D Has) as (pre & key & ev & post & E1 & E2 & E3 & E4 & E5).
      exists pre, key, ev, post. rewrite E5. auto. }
    split; [exact Cases |].
    destruct Cases as [(x & Hx & Ha) | [(x & a & Hx & Ha & Hne) | [(a & Hx & Ha) | Has]]].
    + rewrite (A x Hx Ha). discriminate.
    + rewrite (Named x a Hx Ha Hne).
      destruct (positionOfId rules (VStr x)) as [ie |]; [| discriminate].
      destruct (positionOfId rules (VStr a)) as [ia |]; [| discriminate].
      destruct (Nat.ltb ia ie); discriminate.
    + rewrite (N a Hx Ha). discriminate.
    + destruct (D Has) as (pre & key & ev & post & _ & _ & _ & _ & E5).
      rewrite E5. discriminate.
  - intros test rules file res a H Ha.
    destruct (runTest_fired _ _ _ _ _ H Ha) as (i & r & Hi & Hid & Hm).
    exists i, r. split; [exact Hi |]. split; [exact Hid |]. split; [exact Hm |].
    intros Hu. subst a. exact (uniqueIds_firstAt rules i r Hu Hi).
  - exact uniqueIds_firstAt.
  - eexists. split; [reflexivity |].
    split; [reflexivity |].
    split; [apply positionOfId_firstAt; reflexivity |].
    split; [apply positionOfId_firstAt; reflexivity |].
    split; reflexivity.
Qed.

(** The concrete case of the specification, through the general statement:
    case (c) applies because position 0 of [A] is not after position 1 of [B]. *)
Lemma runTest_reason_witness :
  exists res,
    runTest (mkTest "enterprise is not vip" [("tier", VStr "enterprise")]
               [("matched_rule", VStr "A")]) [ruleA; ruleB] "tests.yaml" = Ok res
    /\ reason res = Some (ExpectedButMatched (VStr "A") "B").
Proof.
  eexists. split; [reflexivity |].
  destruct runTest_reason as (H & _).
  assert (Hd : declared [("matched_rule", VStr "A")]).
  { split.
    - right; right. now exists "A".
    - intros k v [E | []]. injection E as _ <-. discriminate. }
  pose proof (H (mkTest "enterprise is not vip" [("tier", VStr "enterprise")]
                  [("matched_rule", VStr "A")]) [ruleA; ruleB] "tests.yaml" _ eq_refl Hd) as P.
  cbv zeta in P. destruct P as (_ & P). destruct (P eq_refl) as (_ & _ & Hc & _).
  apply (Hc "A" "B" eq_refl eq_refl); [discriminate |].
  intros ix ia Hx Ha.
  apply positionOfId_firstAt in Hx. apply positionOfId_firstAt in Ha.
  injection Hx as <-. injection Ha as <-. apply Nat.le_0_l.
Defined.

(** The loader does not check that the ids of the rules are distinct.  With
    two rules of one id, (b) goes by the first of them: here the rule that
    matches is the third, of id [a], after the expected rule [b] at position
    1, and the diagnosis is the ordering one, the first rule of id [a]
    standing at position 0. *)
Lemma duplicate_ids_ordering :
  exists res,
    runTest (mkTest "gold" [("tier", VStr "basic")] [("matched_rule", VStr "b")])
      [mkRule "a" (VObj [("tier", VStr "vip")]) (VObj []);
       mkRule "b" (VObj [("tier", VStr "gold")]) (VObj []);
       mkRule "a" (VObj []) (VObj [])] "tests.yaml" = Ok res
    /\ matched_rule (actual res) = Some "a"
    /\ reason res = Some (MatchedBefore "a" (VStr "b")).
Proof. eexists. repeat split. Qed.

(** A [null] constraint on [discount_code]: an explicit [null] matches, a
    missing field does not. *)
Lemma strict_matching_witness :
  matchConditions (VObj [("discount_code", VNull)]) [("discount_code", VNull)] = Ok true
  /\ matchConditions (VObj [("quantity", VNum 100)]) [("quantity", VStr "100")] = Ok false.
Proof.
  destruct strict_matching as (_ & H2 & _ & H4 & _).
  split.
  - apply (H4 "discount_code" [("discount_code", VNull)]); reflexivity.
  - apply (H2 "quantity" 100%float "100" []). reflexivity.
Defined.

(** ** Further properties of the evaluator *)

Section QuantifiersTrue.
Context {A : Type} (f : A -> result bool).

Lemma every_true_iff (cs : list A) :
  every f cs = Ok true <-> Forall (fun c => f c = Ok true) cs.
Proof.
  induction cs as [| c cs IH]; simpl.
  - split; [constructor | reflexivity].
  - split.
    + intros H. destruct (f c) as [[|] | |] eqn:E; simpl in H; try discriminate.
      constructor; [exact E | now apply IH].
    + intros H. inversion H as [| ? ? Hc Hcs]; subst. rewrite Hc. simpl. now apply IH.
Qed.

Lemma every_pointwise (g : A -> result bool) (cs : list A) :
  Forall (fun c => f c = g c) cs -> every f cs = every g cs.
Proof.
  induction 1 as [| c cs Hc _ IH]; simpl; [reflexivity |].
  rewrite Hc. destruct (g c) as [[|] | |]; simpl; auto.
Qed.

Lemma some_pointwise (g : A -> result bool) (cs : list A) :
  Forall (fun c => f c = g c) cs -> some f cs = some g cs.
Proof.
  induction 1 as [| c cs Hc _ IH]; simpl; [reflexivity |].
  rewrite Hc. destruct (g c) as [[|] | |]; simpl; auto.
Qed.
End QuantifiersTrue.

Lemma fieldsMatch_true_iff (es : obj) (input : obj) :
  fieldsMatch es input = Ok true <->
  (forall k v, In (k, v) es -> reserved k = false ->
               matchCondition v (getOwn input k) = Ok true).
Proof.
  split.
  - intros H k v Hin Hk. exact (fieldsMatch_true_In es input k v H Hin Hk).
  - induction es as [| [k v] es IH]; simpl; intros H; [reflexivity |].
    destruct (reserved k) eqn:Hk.
    + apply IH. intros k' v' Hin. apply H. now right.
    + rewrite (H k v (or_introl eq_refl) Hk). simpl.
      apply IH. intros k' v' Hin. apply H. now right.
Qed.

(** X1: the keys of a condition object are conjoined.  The tree matches iff
    every plain field constraint is satisfied by the value the input holds
    under that field, every tree of the [all] sequence matches, and, when
    there is an [any] sequence, one of its trees matches and the ones before
    it do not. *)
Theorem tree_is_conjunction (fs : obj) (input : obj) :
  matchConditions (VObj fs) input = Ok true <->
  (forall k v, In (k, v) fs -> reserved k = false ->
               matchCondition v (getOwn input k) = Ok true)
  /\ (forall cs, lookup "all" fs = Some (VArr cs) ->
                 Forall (fun c => matchConditions c input = Ok true) cs)
  /\ (forall cs, lookup "any" fs = Some (VArr cs) ->
                 exists pre c post,
                   cs = pre ++ c :: post
                   /\ Forall (fun c => matchConditions c input = Ok false) pre
                   /\ matchConditions c input = Ok true).
Proof.
  rewrite matchConditions_true_iff, fieldsMatch_true_iff.
  unfold allClause, anyClause. split.
  - intros (Hf & Hall & Hany). split; [exact Hf |]. split.
    + intros cs E. rewrite E in Hall. now apply every_true_iff.
    + intros cs E. rewrite E in Hany. now apply some_true_inv.
  - intros (Hf & Hall & Hany). split; [exact Hf |]. split.
    + destruct (lookup "all" fs) as [[| | | | | cs |] |]; try reflexivity.
      apply every_true_iff. now apply Hall.
    + destruct (lookup "any" fs) as [[| | | | | cs |] |]; try reflexivity.
      destruct (Hany cs eq_refl) as (pre & c & post & -> & Hpre & Hc).
      now apply some_true_first.
Qed.

Lemma fieldsMatch_agree (es : obj) (input input' : obj) :
  (forall k v, In (k, v) es -> reserved k = false -> agreeOn input input' k) ->
  fieldsMatch es input = fieldsMatch es input'.
Proof.
  induction es as [| [k v] es IH]; simpl; intros H; [reflexivity |].
  assert (E : fieldsMatch es input = fieldsMatch es input').
  { apply IH. intros k' v' Hin. apply (H k' v'). now right. }
  destruct (reserved k) eqn:Hk; [exact E |].
  rewrite (H k v (or_introl eq_refl) Hk), E. reflexivity.
Qed.

(** The result of the matcher is the same on two inputs that agree on the
    fields the tree reads. *)
Lemma matchConditions_agree (input input' : obj) (c : value) :
  (forall k, Reads k c -> agreeOn input input' k) ->
  matchConditions c input = matchConditions c input'.
Proof.
  enough (Q : ((forall k, Reads k c -> agreeOn input input' k) ->
               matchConditions c input = matchConditions c input')
              /\ (forall cs, c = VArr cs ->
                  Forall (fun d => (forall k, Reads k d -> agreeOn input input' k) ->
                                   matchConditions d input = matchConditions d input') cs))
    by exact (proj1 Q).
  induction c as [| | b | x | s | xs IH | fs IH] using value_ind;
    try (split; [reflexivity | intros cs E; discriminate E]).
  - split; [| intros cs E; discriminate E].
    intros H. cbn [matchConditions].
    rewrite (fieldsMatch_agree _ input input'); [reflexivity |].
    intros k v Hin Hk. apply H. now apply (Reads_field k (VStr s) v).
  - split.
    + intros H. cbn [matchConditions].
      rewrite (fieldsMatch_agree _ input input'); [reflexivity |].
      intros k v Hin Hk. apply H. now apply (Reads_field k (VArr xs) v).
    + intros cs E. injection E as <-.
      apply (Forall_impl _ (fun d (Hd : _ /\ _) => proj1 Hd) IH).
  - split; [| intros cs E; discriminate E].
    intros H.
    assert (Nested : forall g cs, reserved g = true -> lookup g fs = Some (VArr cs) ->
              Forall (fun d => matchConditions d input = matchConditions d input') cs).
    { intros g cs Hg Hl. pose proof (lookup_In _ _ _ Hl) as Hin.
      rewrite Forall_forall in IH. destruct (IH _ Hin) as [_ Hq].
      specialize (Hq cs eq_refl). rewrite Forall_forall in *.
      intros d Hd. apply (Hq d Hd). intros k Hk. apply H.
      exact (Reads_group k fs g cs d Hg Hl Hd Hk). }
    rewrite !matchConditions_obj.
    rewrite (fieldsMatch_agree fs input input')
      by (intros k v Hin Hk; apply H; now apply (Reads_field k (VObj fs) v)).
    assert (Eall : allClause fs input = allClause fs input').
    { unfold allClause. destruct (lookup "all" fs) as [[| | | | | cs |] |] eqn:E; try reflexivity.
      apply every_pointwise. exact (Nested "all" cs eq_refl E). }
    assert (Eany : anyClause fs input = anyClause fs input').
    { unfold anyClause. destruct (lookup "any" fs) as [[| | | | | cs |] |] eqn:E; try reflexivity.
      apply some_pointwise. exact (Nested "any" cs eq_refl E). }
    now rewrite Eall, Eany.
Qed.

Lemma evaluate_agree (rules : list Rule) (input input' : obj) :
  (forall r k, In r rules -> Reads k (when r) -> agreeOn input input' k) ->
  evaluate rules input = evaluate rules input'.
Proof.
  induction rules as [| r rest IH]; simpl; intros H; [reflexivity |].
  rewrite (matchConditions_agree input input' (when r))
    by (intros k Hk; apply (H r k); [now left | exact Hk]).
  rewrite IH; [reflexivity |]. intros r' k Hin. apply H. now right.
Qed.

Lemma getOwn_cons_fresh (k k' : string) (v : value) (input : obj) :
  k' <> k -> agreeOn ((k, v) :: input) input k'.
Proof.
  intros Hk. unfold agreeOn. apply getOwn_cons_other. now apply String.eqb_neq.
Qed.

(** X2: input fields that no condition reads are ignored.  If two inputs
    hold the same values under every field that the conditions of the rules
    read (their plain keys, at every depth of [all] and [any]), [evaluate]
    returns the same result on both; so a field that no rule reads can be
    added to the input, or changed, without changing the result. *)
Theorem evaluate_reads_only (rules : list Rule) (input input' : obj) :
  ((forall r k, In r rules -> Reads k (when r) -> getOwn input k = getOwn input' k) ->
   evaluate rules input = evaluate rules input')
  /\ (forall k v,
      (forall r, In r rules -> ~ Reads k (when r)) ->
      evaluate rules ((k, v) :: input) = evaluate rules input).
Proof.
  split.
  - exact (evaluate_agree rules input input').
  - intros k v Hk. apply evaluate_agree. intros r k' Hr Hread.
    apply getOwn_cons_fresh. intros ->. exact (Hk r Hr Hread).
Qed.

(** Adding a [region] to the input of the two rules of the end-to-end
    example, neither of which reads it. *)
Lemma evaluate_reads_only_witness :
  evaluate [ruleVip; ruleDefault] [("region", VStr "us"); ("tier", VStr "vip")]
  = evaluate [ruleVip; ruleDefault] [("tier", VStr "vip")].
Proof.
  apply (evaluate_reads_only [ruleVip; ruleDefault] [("tier", VStr "vip")]
           [("tier", VStr "vip")]).
  intros r [<- | [<- | []]] H; inversion H; subst;
    cbn [entries lookup when ruleVip ruleDefault In] in *;
    repeat match goal with
           | D : _ \/ _ |- _ => destruct D as [D | D]
           | E : (_, _) = (_, _) |- _ => discriminate E
           | F : False |- _ => contradiction
           | Hl : _ = Some _ |- _ => try destruct (String.eqb "tier" _); discriminate Hl
           end.
Defined.

Lemma lookup_Some_In_keys (k : string) (o : obj) (v : value) :
  lookup k o = Some v -> In k (map fst o).
Proof.
  intros H. apply lookup_In in H. change k with (fst (k, v)). now apply in_map.
Qed.

Lemma lookup_Permutation (k : string) (o o' : obj) :
  NoDup (map fst o) -> Permutation o o' -> lookup k o = lookup k o'.
Proof.
  intros Hnd Hp.
  assert (Hnd' : NoDup (map fst o')).
  { apply (Permutation_NoDup (Permutation_map fst Hp) Hnd). }
  destruct (lookup k o) as [v |] eqn:E.
  - symmetry. apply lookup_NoDup; [exact Hnd' |].
    apply (Permutation_in _ Hp). now apply lookup_In.
  - destruct (lookup k o') as [v' |] eqn:E'; [| reflexivity].
    apply lookup_In in E'. apply (Permutation_in _ (Permutation_sym Hp)) in E'.
    rewrite (lookup_NoDup o k v' Hnd E') in E. discriminate E.
Qed.

(** X3: the order of the fields of the input does not matter.  For an
    input with distinct keys, [evaluate] and [evaluateByType] return the same
    result on every reordering of its fields. *)
Theorem evaluate_input_order (rules : list Rule) (input input' : obj) :
  NoDup (map fst input) -> Permutation input input' ->
  evaluate rules input = evaluate rules input'
  /\ (forall ruleType,
      evaluateByType rules ruleType input = evaluateByType rules ruleType input').
Proof.
  intros Hnd Hp.
  assert (E : forall rs, evaluate rs input = evaluate rs input').
  { intros rs. apply evaluate_agree. intros r k _ _. unfold agreeOn, getOwn.
    now rewrite (lookup_Permutation k input input' Hnd Hp). }
  split; [apply E |].
  intros ruleType. unfold evaluateByType.
  destruct (filterR _ rules) as [kept | |]; simpl; [apply E | reflexivity | reflexivity].
Qed.

Lemma evaluate_input_order_witness :
  evaluate [ruleVip; ruleDefault] [("tier", VStr "vip"); ("qty", VNum 3)]
  = evaluate [ruleVip; ruleDefault] [("qty", VNum 3); ("tier", VStr "vip")].
Proof.
  apply (evaluate_input_order [ruleVip; ruleDefault]
           [("tier", VStr "vip"); ("qty", VNum 3)] [("qty", VNum 3); ("tier", VStr "vip")]).
  - repeat constructor; simpl; intuition discriminate.
  - apply perm_swap.
Defined.

(** X4: rule lists compose by fall-through.  Evaluating the concatenation
    of two rule lists gives the result of the first list when one of its
    rules matches, and the result of the second list otherwise; a throw in
    the first list is a throw of the whole.  (The command concatenates the
    rules of all rule files in this way.) *)
Theorem evaluate_app (rules1 rules2 : list Rule) (input : obj) :
  evaluate (rules1 ++ rules2) input =
  (res <- evaluate rules1 input ;;
   match matched_rule res with
   | Some _ => Ok res
   | None => evaluate rules2 input
   end).
Proof.
  induction rules1 as [| q rest IH]; simpl; [reflexivity |].
  destruct (matchConditions (when q) input) as [[|] | |]; simpl; auto.
Qed.

Lemma filterR_type_Ok (d : string) (rules kept : list Rule) :
  filterR (fun rule => c <- ruleTypeCondition rule ;; Ok (strictEq c (VStr d))) rules = Ok kept ->
  kept = filter (constrainsType d) rules.
Proof.
  revert kept. induction rules as [| r rest IH]; simpl; intros kept H.
  - now injection H as <-.
  - destruct (nullish (when r)) eqn:Hn.
    + unfold ruleTypeCondition in H. destruct (when r); try discriminate Hn; discriminate H.
    + rewrite (ruleTypeCondition_constrains d r Hn) in H. cbn [bind] in H.
      destruct (filterR _ rest) as [kept' | |]; try discriminate H.
      cbn [bind] in H. injection H as <-. now rewrite (IH kept' eq_refl).
Qed.

Lemma evaluateByType_fired (rules : list Rule) (d : string) (input : obj)
  (res : EvaluationResult) (x : string) :
  evaluateByType rules (VStr d) input = Ok res ->
  matched_rule res = Some x ->
  getOwn input "rule_type" = VStr d
  /\ exists r, In r rules /\ id r = x /\ constrainsType d r = true
               /\ matchConditions (when r) input = Ok true
               /\ output res = spread (then_ r).
Proof.
  unfold evaluateByType. intros H Hx.
  destruct (filterR _ rules) as [kept | |] eqn:Ek; try discriminate H. cbn [bind] in H.
  apply filterR_type_Ok in Ek. subst kept.
  destruct (evaluate_inv _ _ _ H) as [(pre & r & post & E & _ & Hr & ->) | [_ ->]];
    [| discriminate Hx].
  assert (Hin : In r (filter (constrainsType d) rules)).
  { rewrite E. apply in_or_app. right. now left. }
  apply filter_In in Hin. destruct Hin as [Hin Hc].
  split.
  - destruct (proj1 (constrainsType_spec d r) Hc) as (fs & Hw & Hl).
    rewrite Hw in Hr. apply matchConditions_true_iff in Hr. destruct Hr as (Hf & _).
    pose proof (fieldsMatch_true_In fs input "rule_type" (VStr d) Hf
                  (lookup_In _ _ _ Hl) eq_refl) as Hm.
    change (matchCondition (VStr d) (getOwn input "rule_type"))
      with (@Ok bool (strictEq (getOwn input "rule_type") (VStr d))) in Hm.
    injection Hm as Hm. destruct (getOwn input "rule_type"); try discriminate Hm.
    simpl in Hm. apply String.eqb_eq in Hm. now subst.
  - exists r. simpl in Hx. injection Hx as <-. repeat split; auto.
Qed.

(** X5: a scoped evaluation fires only for an input of that type.  When
    [evaluateByType] with the discriminator string [d] returns a matched
    rule, the input itself holds the string [d] under [rule_type], and the
    rule is one of the list whose condition has [rule_type] equal to [d]; on
    an input with another [rule_type], or none, no rule is ever returned. *)
Theorem evaluateByType_needs_type (rules : list Rule) (d : string) (input : obj)
  (res : EvaluationResult) (x : string) :
  evaluateByType rules (VStr d) input = Ok res ->
  matched_rule res = Some x ->
  getOwn input "rule_type" = VStr d
  /\ exists r, In r rules /\ id r = x /\ constrainsType d r = true
               /\ matchConditions (when r) input = Ok true
               /\ output res = spread (then_ r).
Proof. apply evaluateByType_fired. Qed.

Lemma evaluateByType_needs_type_witness :
  getOwn [("rule_type", VStr "shipping")] "rule_type" = VStr "shipping"
  /\ exists r, In r [ruleDefault; rulePricing; ruleShipping] /\ id r = "s1"
               /\ constrainsType "shipping" r = true
               /\ matchConditions (when r) [("rule_type", VStr "shipping")] = Ok true
               /\ [("free", VBool true)] = spread (then_ r).
Proof.
  exact (evaluateByType_needs_type [ruleDefault; rulePricing; ruleShipping] "shipping"
           [("rule_type", VStr "shipping")]
           {| matched_rule := Some "s1"; output := [("free", VBool true)] |} "s1"
           eq_refl eq_refl).
Defined.

Lemma getOwn_in_front (fs : obj) (v : value) (k : string) :
  In k comparisonKeys -> getOwn (("in", v) :: fs) k = getOwn fs k.
Proof.
  intros Hk. apply getOwn_cons_other.
  simpl in Hk. destruct Hk as [<- | [<- | [<- | [<- | []]]]]; reflexivity.
Qed.

Lemma compareValue_bounds (a : value) (fs fs' : obj) :
  (forall k, In k comparisonKeys -> getOwn fs k = getOwn fs' k) ->
  compareValue a fs = compareValue a fs'.
Proof.
  intros H. unfold compareValue.
  rewrite (H "gte"), (H "lte"), (H "gt"), (H "lt") by (simpl; tauto). reflexivity.
Qed.

(** X6: a constraint object that carries a comparison key is a comparison,
    whatever else it carries.  Its outcome depends on the values under
    [gte], [lte], [gt] and [lt] only: two such objects with the same four
    bounds decide alike, and an [in] list beside the bounds is ignored. *)
Theorem comparison_ignores_other_keys (fs : obj) (a : value) :
  isComparisonOperator (VObj fs) = true ->
  (forall fs',
      isComparisonOperator (VObj fs') = true ->
      (forall k, In k comparisonKeys -> getOwn fs k = getOwn fs' k) ->
      matchCondition (VObj fs) a = matchCondition (VObj fs') a)
  /\ (forall v, matchCondition (VObj (("in", v) :: fs)) a = matchCondition (VObj fs) a).
Proof.
  intros Hop.
  assert (G : forall fs', isComparisonOperator (VObj fs') = true ->
                (forall k, In k comparisonKeys -> getOwn fs k = getOwn fs' k) ->
                matchCondition (VObj fs) a = matchCondition (VObj fs') a).
  { intros fs' Hop' H. unfold matchCondition. rewrite Hop, Hop'.
    now apply compareValue_bounds. }
  split; [exact G |].
  intros v. symmetry. apply G.
  - exact Hop.
  - intros k Hk. symmetry. now apply getOwn_in_front.
Qed.

(** The bound [gte: 10] with the list [in: [5]] beside it: 12 satisfies it
    and 5 does not. *)
Lemma comparison_ignores_other_keys_witness :
  matchCondition (VObj [("in", VArr [VNum 5]); ("gte", VNum 10)]) (VNum 12) = Ok true
  /\ matchCondition (VObj [("in", VArr [VNum 5]); ("gte", VNum 10)]) (VNum 5) = Ok false.
Proof.
  split.
  - rewrite (proj2 (comparison_ignores_other_keys [("gte", VNum 10)] (VNum 12) eq_refl)).
    reflexivity.
  - rewrite (proj2 (comparison_ignores_other_keys [("gte", VNum 10)] (VNum 5) eq_refl)).
    reflexivity.
Defined.

Lemma sameValueZero_undefined (x : value) :
  sameValueZero x VUndefined = strictEq x VUndefined.
Proof. destruct x; reflexivity. Qed.

Lemma matchCondition_undefined (c : value) :
  noUndefined c = true -> matchCondition c VUndefined = Ok false.
Proof.
  unfold noUndefined, matchCondition. intros H.
  apply andb_true_iff in H. destruct H as [Hc Hin].
  destruct (isComparisonOperator c); [reflexivity |].
  destruct (isInOperator c) eqn:Hop.
  - destruct c as [| | | | | | fs]; try discriminate Hop.
    unfold isInOperator in Hop. unfold checkInOperator, getOwn. cbn [entries].
    destruct (lookup "in" fs) as [[| | | | | xs |] |]; try discriminate Hop.
    f_equal. apply negb_true_iff in Hin. rewrite <- Hin.
    clear. induction xs as [| x xs IH]; simpl; [reflexivity |].
    now rewrite sameValueZero_undefined, IH.
  - f_equal. destruct c; try reflexivity. discriminate Hc.
Qed.

(** X7: a constraint on a field that the input lacks is never satisfied.
    Whatever the constraint of a YAML document (a scalar, a comparison, an
    [in] list), the [undefined] read from a missing key fails it, and a tree
    with a plain field that the input lacks matches no such input. *)
Theorem missing_field_fails (fs : obj) (input : obj) (k : string) (c : value) :
  In (k, c) fs -> reserved k = false -> noUndefined c = true ->
  lookup k input = None ->
  matchCondition c (getOwn input k) = Ok false
  /\ (forall b, matchConditions (VObj fs) input = Ok b -> b = false).
Proof.
  intros Hin Hk Hc Hmiss.
  assert (E : matchCondition c (getOwn input k) = Ok false).
  { unfold getOwn. rewrite Hmiss. now apply matchCondition_undefined. }
  split; [exact E |].
  intros [|] Hb; [| reflexivity].
  apply matchConditions_true_iff in Hb. destruct Hb as (Hf & _).
  rewrite (fieldsMatch_true_In fs input k c Hf Hin Hk) in E. discriminate E.
Qed.

Lemma missing_field_fails_witness :
  matchCondition (VObj [("in", VArr [VStr "us"; VNull])]) (getOwn [("tier", VStr "vip")] "region")
  = Ok false.
Proof.
  apply (missing_field_fails
           [("tier", VStr "vip"); ("region", VObj [("in", VArr [VStr "us"; VNull])])]
           [("tier", VStr "vip")] "region" (VObj [("in", VArr [VStr "us"; VNull])])).
  - right. now left.
  - reflexivity.
  - reflexivity.
  - reflexivity.
Defined.

(** ** Numbers

    The comparisons of two numbers are those of IEEE 754, which the standard
    library specifies for the primitive floats. *)

From Stdlib Require Import ZArith SpecFloat FloatOps FloatAxioms.

Lemma SFcompare_antisym (x y : spec_float) :
  SFcompare y x = option_map CompOpp (SFcompare x y).
Proof.
  destruct x as [sx | sx | | sx mx ex], y as [sy | sy | | sy my ey]; simpl;
    try reflexivity;
    try (destruct sx; reflexivity); try (destruct sy; reflexivity);
    try (destruct sx, sy; reflexivity).
  destruct sx, sy; simpl; try reflexivity; f_equal;
    rewrite (Z.compare_antisym ex ey);
    destruct (ex ?= ey)%Z; simpl; try reflexivity;
    rewrite (Pos.compare_cont_antisym mx my Eq); reflexivity.
Qed.

Lemma SFcompare_refl (x : spec_float) : x <> S754_nan -> SFcompare x x = Some Eq.
Proof.
  destruct x as [s | s | | s m e]; simpl; intros H; try reflexivity.
  - now destruct s.
  - now elim H.
  - rewrite Z.compare_refl, Pos.compare_cont_refl. now destruct s.
Qed.

Lemma float_eqb_sym (x y : float) : PrimFloat.eqb x y = PrimFloat.eqb y x.
Proof.
  rewrite !eqb_spec. unfold SFeqb. rewrite (SFcompare_antisym (Prim2SF x) (Prim2SF y)).
  destruct (SFcompare (Prim2SF x) (Prim2SF y)) as [[| |] |]; reflexivity.
Qed.

Lemma is_nan_Prim2SF (x : float) : PrimFloat.is_nan x = true -> Prim2SF x = S754_nan.
Proof.
  unfold PrimFloat.is_nan. rewrite eqb_spec. unfold SFeqb. intros H.
  destruct (Prim2SF x) eqn:E; try reflexivity;
    rewrite SFcompare_refl in H by discriminate; discriminate H.
Qed.

Lemma SFcompare_nan_r (f : spec_float) : SFcompare f S754_nan = None.
Proof. destruct f; reflexivity. Qed.

(** No comparison holds of NaN, on either side. *)
Lemma nan_unordered (rel : float -> float -> bool) (x y : float) :
  In rel [ge; le; gt; lt] ->
  PrimFloat.is_nan x = true \/ PrimFloat.is_nan y = true ->
  rel x y = false.
Proof.
  intros Hrel Hnan.
  assert (E : SFcompare (Prim2SF x) (Prim2SF y) = None
              /\ SFcompare (Prim2SF y) (Prim2SF x) = None).
  { destruct Hnan as [H | H]; apply is_nan_Prim2SF in H; rewrite H;
      split; try reflexivity; apply SFcompare_nan_r. }
  destruct E as [E1 E2].
  simpl in Hrel. destruct Hrel as [<- | [<- | [<- | [<- | []]]]];
    unfold ge, le, gt, lt; rewrite ?leb_spec, ?ltb_spec; unfold SFleb, SFltb;
    rewrite ?E1, ?E2; reflexivity.
Qed.

Lemma ge_le_eqb (a b : float) : ge a b && le a b = PrimFloat.eqb a b.
Proof.
  unfold ge, le. rewrite !leb_spec, eqb_spec. unfold SFleb, SFeqb.
  rewrite (SFcompare_antisym (Prim2SF a) (Prim2SF b)).
  destruct (SFcompare (Prim2SF a) (Prim2SF b)) as [[| |] |]; reflexivity.
Qed.

Lemma strict_excludes (a b : float) :
  gt a b && lt a b = false /\ gt a b && le a b = false /\ ge a b && lt a b = false.
Proof.
  unfold ge, le, gt, lt. rewrite !leb_spec, !ltb_spec. unfold SFleb, SFltb.
  rewrite (SFcompare_antisym (Prim2SF a) (Prim2SF b)).
  destruct (SFcompare (Prim2SF a) (Prim2SF b)) as [[| |] |]; repeat split; reflexivity.
Qed.

Lemma strictEq_sym (a b : value) : strictEq a b = strictEq b a.
Proof.
  destruct a, b; simpl; try reflexivity.
  - now destruct b, b0.
  - apply float_eqb_sym.
  - apply String.eqb_sym.
Qed.

Lemma plainScalar_exact (x a : value) :
  plainScalar x = true ->
  matchCondition x a = Ok (strictEq a x) /\ sameValueZero x a = strictEq a x.
Proof.
  intros Hx. split.
  - destruct x; try discriminate Hx; reflexivity.
  - rewrite sameValueZero_strictEq, (strictEq_sym x a).
    destruct x; try discriminate Hx; simpl; rewrite ?orb_false_r; try reflexivity.
    simpl in Hx. apply negb_true_iff in Hx. rewrite Hx. simpl. apply orb_false_r.
Qed.

(** X8: an [in] list of scalars is the disjunction of the exact matches
    with its elements.  For a list of strings, booleans, [null] and numbers
    other than NaN, the constraint [{in: xs}] is satisfied by the values that
    the exact-match constraint [x] of some element [x] of [xs] is satisfied
    by; so a list of one element is the exact match with it. *)
Theorem in_is_disjunction (fs : obj) (xs : list value) (a : value) :
  isComparisonOperator (VObj fs) = false ->
  lookup "in" fs = Some (VArr xs) ->
  forallb plainScalar xs = true ->
  (matchCondition (VObj fs) a = Ok true <->
   Exists (fun x => matchCondition x a = Ok true) xs)
  /\ (forall v, xs = [v] -> matchCondition (VObj fs) a = matchCondition v a).
Proof.
  intros Hop Hin Hxs. rewrite (matchCondition_in fs xs a Hop Hin).
  rewrite forallb_forall in Hxs. split.
  - rewrite Exists_exists. split.
    + intros H. injection H as H. apply existsb_exists in H.
      destruct H as (x & Hx & Hs). exists x. split; [exact Hx |].
      destruct (plainScalar_exact x a (Hxs x Hx)) as [-> E]. now rewrite <- E, Hs.
    + intros (x & Hx & Hm). f_equal. apply existsb_exists. exists x. split; [exact Hx |].
      destruct (plainScalar_exact x a (Hxs x Hx)) as [E1 E2].
      rewrite E1 in Hm. injection Hm as Hm. now rewrite E2.
  - intros v ->. simpl.
    destruct (plainScalar_exact v a (Hxs v (or_introl eq_refl))) as [-> ->].
    now rewrite orb_false_r.
Qed.

Lemma in_is_disjunction_witness :
  matchCondition (VObj [("in", VArr [VStr "enterprise"])]) (VStr "enterprise")
  = matchCondition (VStr "enterprise") (VStr "enterprise").
Proof.
  destruct (in_is_disjunction [("in", VArr [VStr "enterprise"])] [VStr "enterprise"]
              (VStr "enterprise") eq_refl eq_refl eq_refl) as [_ H].
  exact (H (VStr "enterprise") eq_refl).
Defined.

Lemma comparison_key_bound (fs : obj) :
  isComparisonOperator (VObj fs) = true -> numericBounds fs ->
  exists k n, In k comparisonKeys /\ lookup k fs = Some (VNum n).
Proof.
  unfold isComparisonOperator, keys. cbn [entries]. intros Hop Hnum.
  apply existsb_exists in Hop. destruct Hop as (k & Hk & Hc).
  unfold includesKey in Hc. apply existsb_exists in Hc. destruct Hc as (k' & Hk' & E).
  apply String.eqb_eq in E. subst k'.
  destruct (Hnum k Hk') as [Hnone | [n Hn]]; [| now exists k, n].
  exfalso. clear Hnum Hk'. induction fs as [| [k0 v0] fs IH]; simpl in *; [contradiction |].
  destruct (String.eqb k0 k) eqn:E; [discriminate Hnone |].
  destruct Hk as [-> | Hk]; [now rewrite String.eqb_refl in E | now apply IH].
Qed.

Lemma presentBoundsHold_false (fs : obj) (y n : float) (k : string) :
  In k comparisonKeys -> lookup k fs = Some (VNum n) ->
  (forall rel, In rel [ge; le; gt; lt] -> rel y n = false) ->
  presentBoundsHold fs y = false.
Proof.
  intros Hk Hl H. unfold presentBoundsHold. simpl in Hk.
  destruct Hk as [<- | [<- | [<- | [<- | []]]]].
  - unfold bound at 1. rewrite Hl. cbn [holdsIfPresent].
    rewrite (H ge) by (simpl; tauto). reflexivity.
  - unfold bound at 2. rewrite Hl. cbn [holdsIfPresent].
    rewrite (H le) by (simpl; tauto). now rewrite andb_false_r.
  - unfold bound at 3. rewrite Hl. cbn [holdsIfPresent].
    rewrite (H gt) by (simpl; tauto). now rewrite andb_false_r.
  - unfold bound at 4. rewrite Hl. cbn [holdsIfPresent].
    rewrite (H lt) by (simpl; tauto). now rewrite andb_false_r.
Qed.

(** X9: NaN satisfies no comparison, and a NaN bound is satisfied by no
    number.  A comparison-operator object with numeric bounds fails on the
    actual value NaN; and if one of its bounds is NaN it fails on every
    number, hence on every value. *)
Theorem nan_fails_comparison (fs : obj) (x : float) :
  isComparisonOperator (VObj fs) = true -> numericBounds fs ->
  (PrimFloat.is_nan x = true -> matchCondition (VObj fs) (VNum x) = Ok false)
  /\ (forall k n,
      In k comparisonKeys -> lookup k fs = Some (VNum n) -> PrimFloat.is_nan n = true ->
      forall a, matchCondition (VObj fs) a = Ok false).
Proof.
  intros Hop Hnum.
  assert (G : forall y k n,
             In k comparisonKeys -> lookup k fs = Some (VNum n) ->
             PrimFloat.is_nan y = true \/ PrimFloat.is_nan n = true ->
             matchCondition (VObj fs) (VNum y) = Ok false).
  { intros y k n Hk Hl Hnan. unfold matchCondition. rewrite Hop. cbn [entries].
    rewrite (compareValue_numeric fs y Hnum). f_equal.
    apply (presentBoundsHold_false fs y n k Hk Hl).
    intros rel Hrel. now apply nan_unordered. }
  split.
  - intros Hx. destruct (comparison_key_bound fs Hop Hnum) as (k & n & Hk & Hl).
    apply (G x k n Hk Hl). now left.
  - intros k n Hk Hl Hn a.
    destruct a as [| | b | y | s | ys | gs];
      try (unfold matchCondition; rewrite Hop; reflexivity).
    apply (G y k n Hk Hl). now right.
Qed.

Lemma nan_fails_comparison_witness :
  matchCondition (VObj [("gte", VNum 0)]) (VNum PrimFloat.nan) = Ok false.
Proof.
  apply (nan_fails_comparison [("gte", VNum 0)] PrimFloat.nan).
  - reflexivity.
  - intros k Hk. simpl in Hk.
    destruct Hk as [<- | [<- | [<- | [<- | []]]]];
      [right; eexists; reflexivity | left; reflexivity ..].
  - reflexivity.
Defined.

Lemma bound_lookup (fs : obj) (k : string) (n : float) :
  lookup k fs = Some (VNum n) -> bound fs k = Some n.
Proof. unfold bound. now intros ->. Qed.

(** X10: ranges that close on one bound.  On numbers, the range
    [{gte: b, lte: b}] is the exact match with the number [b].  A comparison
    object (with numeric bounds) that excludes its own bound, by [gt] and [lt]
    of the same number, by [gt] and [lte], or by [gte] and [lt], is satisfied
    by no number. *)
Theorem degenerate_ranges (a b : float) :
  matchCondition (VObj [("gte", VNum b); ("lte", VNum b)]) (VNum a)
  = matchCondition (VNum b) (VNum a)
  /\ (forall fs,
      isComparisonOperator (VObj fs) = true -> numericBounds fs ->
      (lookup "gt" fs = Some (VNum b) /\ lookup "lt" fs = Some (VNum b))
      \/ (lookup "gt" fs = Some (VNum b) /\ lookup "lte" fs = Some (VNum b))
      \/ (lookup "gte" fs = Some (VNum b) /\ lookup "lt" fs = Some (VNum b)) ->
      matchCondition (VObj fs) (VNum a) = Ok false).
Proof.
  split.
  - change (matchCondition (VNum b) (VNum a)) with (@Ok bool (PrimFloat.eqb a b)).
    rewrite <- ge_le_eqb.
    change (matchCondition (VObj [("gte", VNum b); ("lte", VNum b)]) (VNum a))
      with (if negb (ge a b) then @Ok bool false
            else if negb (le a b) then Ok false else Ok true).
    destruct (ge a b), (le a b); reflexivity.
  - intros fs Hop Hnum H. unfold matchCondition. rewrite Hop. cbn [entries].
    rewrite (compareValue_numeric fs a Hnum). f_equal. unfold presentBoundsHold.
    destruct (strict_excludes a b) as (E1 & E2 & E3).
    destruct H as [[H1 H2] | [[H1 H2] | [H1 H2]]];
      rewrite (bound_lookup _ _ _ H1), (bound_lookup _ _ _ H2); cbn [holdsIfPresent].
    + destruct (holdsIfPresent ge a (bound fs "gte")), (holdsIfPresent le a (bound fs "lte"));
        simpl; try reflexivity. exact E1.
    + destruct (holdsIfPresent ge a (bound fs "gte")), (holdsIfPresent lt a (bound fs "lt"));
        simpl; rewrite ?andb_false_r; try reflexivity.
      rewrite andb_true_r, andb_comm. exact E2.
    + destruct (holdsIfPresent le a (bound fs "lte")), (holdsIfPresent gt a (bound fs "gt"));
        simpl; rewrite ?andb_false_r; try reflexivity.
      rewrite !andb_true_r. exact E3.
Qed.

Lemma degenerate_ranges_witness :
  matchCondition (VObj [("gt", VNum 5); ("lte", VNum 5)]) (VNum 5) = Ok false.
Proof.
  destruct (degenerate_ranges 5 5) as [_ H].
  apply (H [("gt", VNum 5); ("lte", VNum 5)]).
  - reflexivity.
  - intros k Hk. simpl in Hk.
    destruct Hk as [<- | [<- | [<- | [<- | []]]]];
      [left; reflexivity | right; eexists; reflexivity
       | right; eexists; reflexivity | left; reflexivity].
  - right. left. split; reflexivity.
Defined.

(** ** Further properties of the test runner *)

Lemma deepEqual_undefined (v : value) :
  v <> VUndefined -> deepEqual v VUndefined = false.
Proof. destruct v; intros H; try reflexivity. now elim H. Qed.

(** X11: the comparer is strict on types.  Two deeply equal values have
    the same type, [null] is deeply equal to [null] only, and a value that is
    neither an array nor an object is deeply equal to exactly the values it
    is strictly equal to: the number 30 is not the string "30", and no value
    of a document equals a missing one. *)
Theorem deepEqual_strict (a b : value) :
  (deepEqual a b = true -> typeof a = typeof b /\ isNull a = isNull b)
  /\ (compound a = false -> deepEqual a b = strictEq a b)
  /\ (a <> VUndefined -> deepEqual a VUndefined = false).
Proof.
  split; [| split].
  - destruct a, b; simpl; intros H; try discriminate H; split; reflexivity.
  - destruct a; intros Ha; try discriminate Ha; destruct b; simpl; try reflexivity.
    + now destruct (Bool.eqb b0 b).
    + now destruct (PrimFloat.eqb x x0).
    + now destruct (String.eqb s s0).
  - apply deepEqual_undefined.
Qed.

Lemma deepEqual_strict_witness :
  deepEqual (VNum 30) (VStr "30") = strictEq (VNum 30) (VStr "30")
  /\ deepEqual (VNum 30) VUndefined = false.
Proof.
  destruct (deepEqual_strict (VNum 30) (VStr "30")) as (_ & H & _).
  destruct (deepEqual_strict (VNum 30) VUndefined) as (_ & _ & H').
  split; [apply H; reflexivity | apply H'; discriminate].
Defined.

Lemma forallb_Permutation {A : Type} (f : A -> bool) (l l' : list A) :
  Permutation l l' -> forallb f l = forallb f l'.
Proof.
  induction 1 as [| x l l' _ IH | x y l | l l' l'' _ IH1 _ IH2]; simpl.
  - reflexivity.
  - now rewrite IH.
  - destruct (f x), (f y); reflexivity.
  - now rewrite IH1.
Qed.

Lemma existsb_Permutation {A : Type} (f : A -> bool) (l l' : list A) :
  Permutation l l' -> existsb f l = existsb f l'.
Proof.
  induction 1 as [| x l l' _ IH | x y l | l l' l'' _ IH1 _ IH2]; simpl.
  - reflexivity.
  - now rewrite IH.
  - destruct (f x), (f y); reflexivity.
  - now rewrite IH1.
Qed.

(** X12: the order of the keys of an object plays no part in deep
    equality.  For objects with distinct keys, comparing reorderings of the
    two objects gives the same result as comparing the objects. *)
Theorem deepEqual_key_order (fs fs' gs gs' : obj) :
  NoDup (map fst gs) ->
  Permutation fs fs' -> Permutation gs gs' ->
  deepEqual (VObj fs) (VObj gs) = deepEqual (VObj fs') (VObj gs').
Proof.
  intros Hnd Hf Hg. rewrite !deepEqual_compound by reflexivity.
  unfold keys. cbn [entries]. rewrite !length_map.
  rewrite (Permutation_length Hf), (Permutation_length Hg). f_equal.
  rewrite (forallb_Permutation _ _ _ Hf).
  apply forallb_pointwise. intros [k v]. unfold sameProperty, keys, includesKey, getOwn.
  cbn [entries fst snd].
  rewrite (existsb_Permutation _ _ _ (Permutation_map fst Hg)).
  now rewrite (lookup_Permutation k gs gs' Hnd Hg).
Qed.

Lemma deepEqual_key_order_witness :
  deepEqual (VObj [("a", VNum 1); ("b", VStr "x")]) (VObj [("a", VNum 1); ("b", VStr "x")])
  = deepEqual (VObj [("a", VNum 1); ("b", VStr "x")]) (VObj [("b", VStr "x"); ("a", VNum 1)]).
Proof.
  apply (deepEqual_key_order [("a", VNum 1); ("b", VStr "x")] [("a", VNum 1); ("b", VStr "x")]
           [("a", VNum 1); ("b", VStr "x")] [("b", VStr "x"); ("a", VNum 1)]).
  - repeat constructor; simpl; intuition discriminate.
  - apply Permutation_refl.
  - apply perm_swap.
Defined.

Lemma forallb_pointwise_In {A : Type} (f g : A -> bool) (l : list A) :
  (forall x, In x l -> f x = g x) -> forallb f l = forallb g l.
Proof.
  induction l as [| x l IH]; simpl; intros H; [reflexivity |].
  rewrite (H x (or_introl eq_refl)), IH; [reflexivity |]. intros y Hy. apply H. now right.
Qed.

Lemma assignedOutput_In (expect : obj) (k : string) (v : value) :
  In (k, v) (assignedOutput expect) <->
  In (k, v) expect /\ String.eqb k "matched_rule" = false
  /\ String.eqb k "__proto__" = false.
Proof.
  unfold assignedOutput. rewrite filter_In. cbn [fst].
  now rewrite andb_true_iff, !negb_true_iff.
Qed.

Lemma getProperty_getOwn (o : obj) (k : string) :
  String.eqb k "__proto__" = false -> getProperty o k = getOwn o k.
Proof. unfold getProperty, getOwn. now intros ->. Qed.

(** X13: a test checks the fields it expects and no other.  Two runs of
    a test, against any two rule lists, that match a rule of the same id (or
    none) and whose outputs hold the same values under the keys the test
    expects, both pass or both fail: what else the output holds is not
    looked at. *)
Theorem runTest_checks_expected_only (test : TestCase) (rules rules' : list Rule)
  (file : string) (res res' : TestResult) :
  runTest test rules file = Ok res ->
  runTest test rules' file = Ok res' ->
  matched_rule (actual res) = matched_rule (actual res') ->
  (forall k v, In (k, v) (expect test) ->
               getOwn (output (actual res)) k = getOwn (output (actual res')) k) ->
  passed res = passed res'.
Proof.
  intros H H' Hm Hout.
  destruct (runTest_Ok _ _ _ _ H) as (_ & -> & _).
  destruct (runTest_Ok _ _ _ _ H') as (_ & -> & _).
  unfold matchedRuleValue. rewrite Hm. f_equal.
  apply forallb_pointwise_In. intros [k v] Hin. unfold fieldAgrees. cbn [fst snd].
  apply assignedOutput_In in Hin. destruct Hin as (Hin & _ & Hp).
  rewrite !(getProperty_getOwn _ _ Hp). now rewrite (Hout k v Hin).
Qed.

(** A test that expects [pct: 0] passes against the default rule, and
    against the same rule with a further output field. *)
Lemma runTest_checks_expected_only_witness :
  Some true =
  match runTest (mkTest "default" [] [("pct", VNum 0)])
          [mkRule "r2" (VObj []) (VObj [("pct", VNum 0); ("note", VStr "none")])] "tests.yaml"
  with
  | Ok res' => Some (passed res')
  | _ => None
  end.
Proof.
  apply (f_equal Some).
  refine (runTest_checks_expected_only (mkTest "default" [] [("pct", VNum 0)])
            [ruleDefault]
            [mkRule "r2" (VObj []) (VObj [("pct", VNum 0); ("note", VStr "none")])]
            "tests.yaml" _ _ eq_refl eq_refl eq_refl _).
  intros k v [E | []]. injection E as <- <-. reflexivity.
Defined.







(** X15: a test that states [matched_rule] alone.  It passes iff the rule
    that matched has the expected id; with [matched_rule: null] it passes iff
    no rule matched.  A test with an empty [expect] passes whatever the rules
    return. *)
Theorem runTest_matched_rule_only (test : TestCase) (rules : list Rule) (file : string)
  (res : TestResult) :
  runTest test rules file = Ok res ->
  (expect test = [] -> passed res = true)
  /\ (expect test = [("matched_rule", VNull)] ->
      (passed res = true <-> matched_rule (actual res) = None))
  /\ (forall x, expect test = [("matched_rule", VStr x)] ->
      (passed res = true <-> matched_rule (actual res) = Some x)).
Proof.
  intros H. destruct (runTest_Ok _ _ _ _ H) as (_ & -> & _).
  unfold matchedRuleValue. split; [| split].
  - intros ->. reflexivity.
  - intros ->. cbn. destruct (matched_rule (actual res)); split; intros E;
      try reflexivity; discriminate E.
  - intros x ->.
    change (assignedOutput [("matched_rule", VStr x)]) with (@nil (string * value)).
    rewrite getOwn_cons_same. cbn [strictEq orb forallb]. rewrite andb_true_r.
    destruct (matched_rule (actual res)) as [y |]; cbn [strictEq].
    + rewrite String.eqb_eq. split; [now intros -> | now intros [= ->]].
    + split; discriminate.
Qed.

Lemma runTest_matched_rule_only_witness :
  exists res,
    runTest (mkTest "nothing fires" [("tier", VStr "standard")] [("matched_rule", VNull)])
      [ruleVip] "tests.yaml" = Ok res
    /\ passed res = true.
Proof.
  eexists. split; [reflexivity |].
  destruct (runTest_matched_rule_only
              (mkTest "nothing fires" [("tier", VStr "standard")] [("matched_rule", VNull)])
              [ruleVip] "tests.yaml" _ eq_refl) as (_ & H & _).
  apply (H eq_refl). reflexivity.
Defined.

(** ** The loader *)

Import Loader.

Lemma typeof_object_iff (v : value) : isObjectType v = true <-> typeof v = TObject.
Proof. unfold isObjectType. destruct (typeof v); simpl; split; congruence. Qed.

Lemma strictEq_undefined_iff (v : value) : strictEq v VUndefined = false <-> v <> VUndefined.
Proof. destruct v; simpl; split; intros H; congruence. Qed.

Lemma nonEmptyString_iff (v : value) :
  negb (truthy v) || negb (isStringType v) = false <-> nonEmptyString v.
Proof.
  unfold nonEmptyString. split.
  - destruct v as [| | b | x | s | xs | fs]; simpl; intros H;
      try discriminate H; try (rewrite orb_true_r in H; discriminate H).
    exists s. split; [reflexivity |]. rewrite orb_false_r, negb_involutive in H.
    now apply String.eqb_neq.
  - intros (s & -> & Hs). simpl. apply String.eqb_neq in Hs. now rewrite Hs.
Qed.

Lemma checkRule_valid_iff (i : nat) (rule : value) :
  checkRule i rule = Ok None <-> validRule rule.
Proof.
  unfold validRule. split.
  - destruct rule as [| | b | x | s | xs | fs]; try discriminate.
    unfold checkRule. cbn [prop bind].
    destruct (negb (truthy (getOwn fs "id")) || negb (isStringType (getOwn fs "id"))) eqn:Eid;
      [discriminate |].
    destruct (strictEq (getOwn fs "when") VUndefined) eqn:Ew; [discriminate |].
    destruct (strictEq (getOwn fs "then") VUndefined
              || negb (isObjectType (getOwn fs "then"))) eqn:Et; [discriminate |].
    intros _. exists fs. split; [reflexivity |].
    apply nonEmptyString_iff in Eid. apply strictEq_undefined_iff in Ew.
    apply orb_false_iff in Et. destruct Et as [_ Et]. apply negb_false_iff in Et.
    apply typeof_object_iff in Et. auto.
  - intros (fs & -> & Hid & Hw & Ht). unfold checkRule. cbn [prop bind].
    apply nonEmptyString_iff in Hid. rewrite Hid.
    apply strictEq_undefined_iff in Hw. rewrite Hw.
    assert (Ht' : strictEq (getOwn fs "then") VUndefined = false).
    { apply strictEq_undefined_iff. intros E. rewrite E in Ht. discriminate Ht. }
    apply typeof_object_iff in Ht. now rewrite Ht', Ht.
Qed.

Lemma checkRules_valid_iff (i : nat) (rules : list value) :
  checkRules i rules = Ok None <-> Forall validRule rules.
Proof.
  revert i. induction rules as [| r rest IH]; intros i; simpl.
  - split; [constructor | reflexivity].
  - split.
    + intros H. destruct (checkRule i r) as [[p |] | |] eqn:E; try discriminate H.
      constructor; [now apply (checkRule_valid_iff i) | now apply (IH (S i))].
    + intros H. inversion H as [| ? ? Hr Hrest]; subst.
      rewrite (proj2 (checkRule_valid_iff i r) Hr). simpl. now apply IH.
Qed.

Lemma document_shape (parsed : value) :
  negb (truthy parsed) || negb (isObjectType parsed) = false ->
  compound parsed = true.
Proof.
  destruct parsed; simpl; intros H; rewrite ?orb_true_r in H; try discriminate H; reflexivity.
Qed.

Lemma loadRuleFile_Loaded_iff (filePath : string) (parsed : value) (file : string)
  (rules : list value) :
  loadRuleFile filePath parsed = Loaded file rules <->
  file = filePath /\ versionOne "rules" parsed rules /\ Forall validRule rules.
Proof.
  unfold loadRuleFile, checkRuleDocument, report, versionOne. split.
  - destruct (negb (truthy parsed) || negb (isObjectType parsed)) eqn:Ep; [discriminate |].
    apply document_shape in Ep.
    destruct parsed as [| | | | | xs | fs]; try discriminate Ep; cbn [prop bind].
    { cbn [strictEq negb]. discriminate. }
    destruct (strictEq (getOwn fs "version") (VNum 1)) eqn:Ev; cbn [negb]; [| discriminate].
    destruct (getOwn fs "rules") as [| | | | | rs |] eqn:Er; try discriminate.
    destruct (checkRules 0 rs) as [[p |] | |] eqn:Ec; cbn [bind]; try discriminate.
    intros H. injection H as <- <-. split; [reflexivity |]. split.
    + exists fs. auto.
    + now apply (checkRules_valid_iff 0).
  - intros (-> & (fs & -> & Hv & Hr) & Hall). cbn [truthy isObjectType typeof jstype_eqb
      negb orb prop bind]. rewrite Hv, Hr. cbn [negb].
    now rewrite (proj2 (checkRules_valid_iff 0 rules) Hall).
Qed.

(** X16: what [loadRuleFile] accepts.  A parsed document loads as a rule
    file iff it is an object whose [version] is the number 1, whose [rules]
    is a sequence, and each of whose rules is an object with a non-empty
    string [id], a [when] and a [then] of type object; the rules are then
    returned as they are, under the path of the file.  Each rule is checked
    on its own: nothing relates two rules, so ids need not be distinct. *)
Theorem loadRuleFile_accepts_iff (filePath : string) (parsed : value) (file : string)
  (rules : list value) :
  loadRuleFile filePath parsed = Loaded file rules <->
  file = filePath /\ versionOne "rules" parsed rules /\ Forall validRule rules.
Proof. apply loadRuleFile_Loaded_iff. Qed.

Lemma isNonEmptyString_check (v : value) :
  negb (truthy v) || negb (isStringType v) = negb (isNonEmptyString v).
Proof.
  destruct v as [| | b | x | s | xs | fs]; simpl; rewrite ?orb_true_r; try reflexivity.
  now rewrite orb_false_r.
Qed.

Lemma checkRule_invalid (i : nat) (rule : value) :
  ~ validRule rule ->
  (nullish rule = true /\ checkRule i rule = TypeError)
  \/ (nullish rule = false /\ checkRule i rule = Ok (Some (ruleProblem i rule))).
Proof.
  intros Hbad.
  assert (Hnone : checkRule i rule <> Ok None).
  { intros E. apply Hbad. now apply (checkRule_valid_iff i). }
  unfold ruleProblem.
  destruct rule as [| | b | x | s | xs | fs];
    try (left; split; reflexivity); try (right; split; reflexivity).
  right. split; [reflexivity |]. cbn [nullish field].
  revert Hnone. unfold checkRule. cbn [prop bind].
  rewrite isNonEmptyString_check.
  destruct (negb (isNonEmptyString (getOwn fs "id"))); [reflexivity |].
  destruct (strictEq (getOwn fs "when") VUndefined); [reflexivity |].
  destruct (strictEq (getOwn fs "then") VUndefined || negb (isObjectType (getOwn fs "then")));
    [reflexivity |].
  intros H. now elim H.
Qed.

Lemma checkRules_skip_valid (i : nat) (pre rest : list value) :
  Forall validRule pre ->
  checkRules i (pre ++ rest) = checkRules (i + List.length pre) rest.
Proof.
  intros H. revert i. induction H as [| r pre Hr _ IH]; intros i; simpl.
  - now rewrite Nat.add_0_r.
  - rewrite (proj2 (checkRule_valid_iff i r) Hr). simpl.
    rewrite IH. f_equal. lia.
Qed.

(** X17: the error of a rule file is that of its first invalid rule.  In
    a document of version 1, if the rules before a rule are valid and the rule
    is not, the file is rejected with the problem of that rule, at its index:
    a throw (caught and reported) if the entry is [null]; else its [id], if
    that is not a non-empty string; else its [when], if missing; else its
    [then].  The rules after it are not looked at. *)
Theorem loadRuleFile_first_error (filePath : string) (parsed : value)
  (pre post : list value) (bad : value) :
  versionOne "rules" parsed (pre ++ bad :: post) ->
  Forall validRule pre -> ~ validRule bad ->
  loadRuleFile filePath parsed
  = Invalid {| error_file := filePath; message := ruleProblem (List.length pre) bad |}.
Proof.
  intros (fs & -> & Hv & Hr) Hpre Hbad.
  unfold loadRuleFile, checkRuleDocument.
  cbn [truthy isObjectType typeof jstype_eqb negb orb prop bind]. rewrite Hv, Hr. cbn [negb].
  rewrite (checkRules_skip_valid 0 pre (bad :: post) Hpre). cbn [checkRules Nat.add].
  destruct (checkRule_invalid (List.length pre) bad Hbad) as [[Hn ->] | [Hn ->]].
  - cbn [bind report]. unfold ruleProblem. now rewrite Hn.
  - reflexivity.
Qed.

(** The second rule of the file has an empty [id]. *)
Lemma loadRuleFile_first_error_witness :
  loadRuleFile "rules/pricing.yaml"
    (ruleDocument [ruleObject "r1" (VObj []) (VObj []);
                   ruleObject "" (VObj []) (VObj []);
                   VNull])
  = Invalid {| error_file := "rules/pricing.yaml"; message := RuleWithoutId 1 |}.
Proof.
  apply (loadRuleFile_first_error "rules/pricing.yaml" _
           [ruleObject "r1" (VObj []) (VObj [])] [VNull] (ruleObject "" (VObj []) (VObj []))).
  - eexists. repeat split; reflexivity.
  - constructor; [| constructor].
    eexists. split; [reflexivity |]. repeat split; try discriminate.
    exists "r1". split; [reflexivity | discriminate].
  - intros (fs & E & (s & Es & Hs) & _). injection E as <-.
    injection Es as <-. now elim Hs.
Defined.

(** X18: the loader lets through a rule with an empty [when] or an empty
    [then].  A rule whose [when] is [null] loads, and evaluating it throws on
    every input, scoped or not.  A rule whose [then] is [null] loads, and
    fires with an empty output. *)
Theorem loader_admits_null (filePath rid : string) (w th : value) :
  rid <> "" ->
  (typeof th = TObject ->
   loadRuleFile filePath (ruleDocument [ruleObject rid VNull th])
   = Loaded filePath [ruleObject rid VNull th]
   /\ (forall input, evaluate [mkRule rid VNull th] input = TypeError)
   /\ (forall d input, evaluateByType [mkRule rid VNull th] d input = TypeError))
  /\ (w <> VUndefined ->
      loadRuleFile filePath (ruleDocument [ruleObject rid w VNull])
      = Loaded filePath [ruleObject rid w VNull]
      /\ (forall input,
          matchConditions w input = Ok true ->
          evaluate [mkRule rid w VNull] input
          = Ok {| matched_rule := Some rid; output := [] |})).
Proof.
  intros Hrid.
  assert (Load : forall w' th', w' <> VUndefined -> typeof th' = TObject ->
            loadRuleFile filePath (ruleDocument [ruleObject rid w' th'])
            = Loaded filePath [ruleObject rid w' th']).
  { intros w' th' Hw Hth. apply loadRuleFile_Loaded_iff. split; [reflexivity |]. split.
    - eexists. repeat split; reflexivity.
    - constructor; [| constructor]. eexists. split; [reflexivity |].
      repeat split; try assumption. now exists rid. }
  split.
  - intros Hth. split; [apply Load; [discriminate | exact Hth] |].
    split; reflexivity.
  - intros Hw. split; [apply Load; [exact Hw | reflexivity] |].
    intros input Hm. simpl. now rewrite Hm.
Qed.

Lemma loader_admits_null_witness :
  loadRuleFile "rules/pricing.yaml" (ruleDocument [ruleObject "r1" VNull (VObj [])])
  = Loaded "rules/pricing.yaml" [ruleObject "r1" VNull (VObj [])].
Proof.
  destruct (loader_admits_null "rules/pricing.yaml" "r1" VNull (VObj [])) as [H _].
  - discriminate.
  - apply H. reflexivity.
Defined.

Lemma checkTest_valid_iff (i : nat) (test : value) :
  checkTest i test = Ok None <-> validTest test.
Proof.
  unfold validTest. split.
  - destruct test as [| | b | x | s | xs | fs]; try discriminate.
    unfold checkTest. cbn [prop bind].
    destruct (negb (truthy (getOwn fs "name")) || negb (isStringType (getOwn fs "name")))
      eqn:En; [discriminate |].
    destruct (strictEq (getOwn fs "input") VUndefined
              || negb (isObjectType (getOwn fs "input"))) eqn:Ei; [discriminate |].
    destruct (strictEq (getOwn fs "expect") VUndefined
              || negb (isObjectType (getOwn fs "expect"))) eqn:Ee; [discriminate |].
    intros _. exists fs. split; [reflexivity |].
    apply nonEmptyString_iff in En.
    apply orb_false_iff in Ei. destruct Ei as [_ Ei]. apply negb_false_iff in Ei.
    apply orb_false_iff in Ee. destruct Ee as [_ Ee]. apply negb_false_iff in Ee.
    apply typeof_object_iff in Ei. apply typeof_object_iff in Ee. auto.
  - intros (fs & -> & Hn & Hi & He). unfold checkTest. cbn [prop bind].
    apply nonEmptyString_iff in Hn. rewrite Hn.
    assert (U : forall v, typeof v = TObject ->
                  strictEq v VUndefined || negb (isObjectType v) = false).
    { intros v Hv. apply orb_false_iff. split.
      - apply strictEq_undefined_iff. intros E. rewrite E in Hv. discriminate Hv.
      - apply negb_false_iff. now apply typeof_object_iff. }
    now rewrite (U _ Hi), (U _ He).
Qed.

Lemma checkTests_valid_iff (i : nat) (tests : list value) :
  checkTests i tests = Ok None <-> Forall validTest tests.
Proof.
  revert i. induction tests as [| t rest IH]; intros i; simpl.
  - split; [constructor | reflexivity].
  - split.
    + intros H. destruct (checkTest i t) as [[p |] | |] eqn:E; try discriminate H.
      constructor; [now apply (checkTest_valid_iff i) | now apply (IH (S i))].
    + intros H. inversion H as [| ? ? Ht Hrest]; subst.
      rewrite (proj2 (checkTest_valid_iff i t) Ht). simpl. now apply IH.
Qed.

Lemma loadTestFile_Loaded_iff (filePath : string) (parsed : value) (file : string)
  (tests : list value) :
  loadTestFile filePath parsed = Loaded file tests <->
  file = filePath /\ versionOne "tests" parsed tests /\ Forall validTest tests.
Proof.
  unfold loadTestFile, checkTestDocument, report, versionOne. split.
  - destruct (negb (truthy parsed) || negb (isObjectType parsed)) eqn:Ep; [discriminate |].
    apply document_shape in Ep.
    destruct parsed as [| | | | | xs | fs]; try discriminate Ep; cbn [prop bind].
    { cbn [strictEq negb]. discriminate. }
    destruct (strictEq (getOwn fs "version") (VNum 1)) eqn:Ev; cbn [negb]; [| discriminate].
    destruct (getOwn fs "tests") as [| | | | | ts |] eqn:Er; try discriminate.
    destruct (checkTests 0 ts) as [[p |] | |] eqn:Ec; cbn [bind]; try discriminate.
    intros H. injection H as <- <-. split; [reflexivity |]. split.
    + exists fs. auto.
    + now apply (checkTests_valid_iff 0).
  - intros (-> & (fs & -> & Hv & Hr) & Hall). cbn [truthy isObjectType typeof jstype_eqb
      negb orb prop bind]. rewrite Hv, Hr. cbn [negb].
    now rewrite (proj2 (checkTests_valid_iff 0 tests) Hall).
Qed.

(** X19: what [loadTestFile] accepts.  A parsed document loads as a test
    file iff it is an object whose [version] is the number 1, whose [tests] is
    a sequence, and each of whose tests is an object with a non-empty string
    [name] and with an [input] and an [expect] of type object.  [null] is of
    type object: a test whose [input] and [expect] are left empty loads. *)
Theorem loadTestFile_accepts_iff (filePath : string) (parsed : value) (file : string)
  (tests : list value) :
  (loadTestFile filePath parsed = Loaded file tests <->
   file = filePath /\ versionOne "tests" parsed tests /\ Forall validTest tests)
  /\ (forall name,
      name <> "" ->
      loadTestFile filePath (testDocument [testObject name VNull VNull])
      = Loaded filePath [testObject name VNull VNull]).
Proof.
  split; [apply loadTestFile_Loaded_iff |].
  intros name Hname. apply loadTestFile_Loaded_iff. split; [reflexivity |]. split.
  - eexists. repeat split; reflexivity.
  - constructor; [| constructor]. eexists. split; [reflexivity |].
    repeat split. now exists name.
Qed.

Lemma loadTestFile_accepts_iff_witness :
  loadTestFile "tests/pricing.yaml" (testDocument [testObject "empty" VNull VNull])
  = Loaded "tests/pricing.yaml" [testObject "empty" VNull VNull].
Proof.
  destruct (loadTestFile_accepts_iff "tests/pricing.yaml" VNull "" []) as [_ H].
  apply H. discriminate.
Defined.

(** ** The command *)

Import Cli.

Lemma loadAllRules_spec (ruleLoads : list (loaded Rule)) (hasErrors : bool)
  (allRules : list Rule) :
  loadAllRules ruleLoads hasErrors allRules
  = (hasErrors || existsb isValidationError ruleLoads,
     allRules ++ flat_map itemsOf ruleLoads).
Proof.
  revert hasErrors allRules.
  induction ruleLoads as [| [file rules | e] rest IH]; intros h acc; simpl.
  - now rewrite orb_false_r, app_nil_r.
  - now rewrite IH, app_assoc.
  - rewrite IH. now rewrite orb_true_r.
Qed.

Lemma runTests_length (tests : list TestCase) (rules : list Rule) (file : string)
  (results : list TestResult) :
  runTests tests rules file = Ok results -> List.length results = List.length tests.
Proof.
  revert results. induction tests as [| t rest IH]; simpl; intros results H.
  - now injection H as <-.
  - destruct (runTest t rules file) as [r | |]; try discriminate H. cbn [bind] in H.
    destruct (runTests rest rules file) as [rs | |]; try discriminate H. cbn [bind] in H.
    injection H as <-. simpl. now rewrite (IH rs eq_refl).
Qed.

Lemma countFailed_app (xs ys : list TestResult) :
  countFailed (xs ++ ys) = countFailed xs + countFailed ys.
Proof. unfold countFailed. now rewrite filter_app, length_app. Qed.

Lemma counts_add_up (results : list TestResult) :
  countPassed results + countFailed results = List.length results.
Proof.
  unfold countPassed, countFailed.
  induction results as [| r rest IH]; simpl; [reflexivity |].
  destruct (passed r); simpl; lia.
Qed.

Lemma runAllTests_spec (testLoads : list (loaded TestCase)) (allRules : list Rule)
  (hasErrors : bool) (acc : list TestResult) (hasErrors' : bool) (acc' : list TestResult) :
  runAllTests testLoads allRules hasErrors acc = Ok (hasErrors', acc') ->
  exists new,
    acc' = acc ++ new
    /\ List.length new = List.length (flat_map itemsOf testLoads)
    /\ hasErrors' = hasErrors || existsb isValidationError testLoads
                    || Nat.ltb 0 (countFailed new).
Proof.
  revert hasErrors acc.
  induction testLoads as [| [file tests | e] rest IH]; intros h acc; simpl; intros H.
  - injection H as <- <-. exists []. now rewrite app_nil_r, !orb_false_r.
  - destruct (runTests tests allRules file) as [trs | |] eqn:Et; try discriminate H.
    cbn [bind] in H. destruct (IH _ _ H) as (new & -> & Hlen & ->).
    exists (trs ++ new). rewrite app_assoc. split; [reflexivity |]. split.
    + now rewrite !length_app, Hlen, (runTests_length _ _ _ _ Et).
    + rewrite countFailed_app.
      destruct (countFailed trs) as [| n]; simpl; [reflexivity |].
      now rewrite !orb_true_r.
  - destruct (IH _ _ H) as (new & -> & Hlen & ->).
    exists new. split; [reflexivity |]. split; [exact Hlen |].
    simpl. now rewrite !orb_true_r.
Qed.

Lemma existsb_false_Forall {A : Type} (f : A -> bool) (l : list A) :
  existsb f l = false <-> Forall (fun x => f x = false) l.
Proof.
  induction l as [| x l IH]; simpl.
  - split; [constructor | reflexivity].
  - rewrite orb_false_iff, IH. split.
    + intros [Hx Hl]. now constructor.
    + intros H. now inversion H.
Qed.

(** X20: the exit code of the command.  When the command ends without a
    throw, it exits with 0 iff every rule file and every test file loaded and
    no test failed, and with 1 otherwise; a rule file that did not load makes
    it exit with 1 even though the tests are still run, against the rules of
    the other files.  The summary counts one result for every test of every
    test file that loaded, each counted as passed or as failed. *)
Theorem check_exit_code (ruleLoads : list (loaded Rule)) (testLoads : list (loaded TestCase))
  (s : Summary) :
  check ruleLoads testLoads = Ok s ->
  (exitCode s = 0 <->
   Forall (fun l => isValidationError l = false) ruleLoads
   /\ Forall (fun l => isValidationError l = false) testLoads
   /\ failedTests s = 0)
  /\ (exitCode s = 0 \/ exitCode s = 1)
  /\ passedTests s + failedTests s = totalTests s
  /\ totalTests s = List.length (flat_map itemsOf testLoads).
Proof.
  unfold check. rewrite loadAllRules_spec. cbn [orb app].
  destruct (runAllTests testLoads _ _ []) as [[h all] | |] eqn:E; try discriminate.
  cbn [bind]. intros H. injection H as <-. cbn [exitCode failedTests passedTests totalTests].
  destruct (runAllTests_spec _ _ _ _ _ _ E) as (new & Hall & Hlen & Hh).
  simpl in Hall. subst all.
  split; [| split; [| split]].
  - rewrite <- !existsb_false_Forall. rewrite Hh.
    destruct (existsb isValidationError ruleLoads), (existsb isValidationError testLoads),
      (countFailed new); simpl; split; try discriminate; try tauto;
      intros (H1 & H2 & H3); discriminate.
  - destruct h; auto.
  - apply counts_add_up.
  - exact Hlen.
Qed.

(** One rule file that did not load, one test file whose only test
    passes: the command exits with 1. *)
Lemma check_exit_code_witness :
  exists s,
    check [Invalid {| error_file := "rules/a.yaml"; message := NoRulesArray |};
           Loaded "rules/b.yaml" [ruleDefault]]
          [Loaded "tests/t.yaml" [mkTest "default" [] [("pct", VNum 0)]]] = Ok s
    /\ exitCode s = 1 /\ passedTests s + failedTests s = totalTests s.
Proof.
  eexists. split; [reflexivity |].
  destruct (check_exit_code
              [Invalid {| error_file := "rules/a.yaml"; message := NoRulesArray |};
               Loaded "rules/b.yaml" [ruleDefault]]
              [Loaded "tests/t.yaml" [mkTest "default" [] [("pct", VNum 0)]]] _ eq_refl)
    as (_ & _ & H & _).
  split; [reflexivity | exact H].
Defined.

(** X21: a test input that carries a type never reaches an untyped rule.
    When the input of a test holds a non-empty string [d] under [rule_type],
    the rule that [runTest] reports as matched, if any, is a rule whose
    condition has [rule_type] equal to [d]; a rule without that key, a
    catch-all with an empty condition included, is never the matched rule of
    such a test. *)
Theorem runTest_typed_input_scoped (test : TestCase) (rules : list Rule) (file : string)
  (res : TestResult) (d x : string) :
  runTest test rules file = Ok res ->
  lookup "rule_type" (input test) = Some (VStr d) -> d <> "" ->
  matched_rule (actual res) = Some x ->
  exists r, In r rules /\ id r = x /\ constrainsType d r = true
            /\ exists fs, when r = VObj fs /\ lookup "rule_type" fs = Some (VStr d).
Proof.
  intros H Hd Hne Hx. destruct (runTest_Ok _ _ _ _ H) as (Ha & _).
  rewrite actualOf_runTest in Ha. unfold getOwn in Ha. rewrite Hd in Ha.
  cbn [truthy] in Ha. apply String.eqb_neq in Hne. rewrite Hne in Ha. cbn [negb] in Ha.
  destruct (evaluateByType_fired rules d (input test) (actual res) x Ha Hx)
    as (_ & r & Hin & Hid & Hc & _).
  exists r. repeat split; auto. now apply constrainsType_spec.
Qed.

(** With a typed input, the shipping rule is reported and the catch-all,
    which stands first, is not. *)
Lemma runTest_typed_input_scoped_witness :
  exists r, In r [ruleDefault; ruleShipping] /\ id r = "s1"
            /\ constrainsType "shipping" r = true
            /\ exists fs, when r = VObj fs /\ lookup "rule_type" fs = Some (VStr "shipping").
Proof.
  refine (runTest_typed_input_scoped
            (mkTest "shipping" [("rule_type", VStr "shipping")] [])
            [ruleDefault; ruleShipping] "tests.yaml" _ "shipping" "s1" eq_refl eq_refl _ eq_refl).
  discriminate.
Defined.
